(** * Rotatarr: the recovery decision engine of [rotatarr.py]

    A shallow embedding of the indexer-recovery script: the JSON records it
    probes, the error detector, the candidate generator, the payload builder,
    the two mutators, the retry wrapper and the per-indexer state machine of
    [run_once], followed by the properties the specification states about
    them.

    Conventions.
    - A JSON document is a [value]; JSON numbers are integers here (the
      script never computes with fractions), and strings are sequences of
      8-bit characters.
    - A Python [dict] is an association list in insertion order; [dict_set]
      overwrites in place or appends, as item assignment does.
    - Code that can raise returns an [outcome]; code that talks to the
      remote service or touches the state file runs in the monad [M], whose
      state survives a raised exception (as a Python heap does).
    - Logging is not modelled. *)

From Stdlib Require Import List String Ascii ZArith Bool Lia DecimalString.
Import ListNotations.
Local Open Scope string_scope.
Local Open Scope list_scope.

(* ================================================================= *)
(** ** Python values *)

Module Py.

#[local] Set Warnings "-register-all".

Inductive value : Type :=
| VNone
| VBool (b : bool)
| VInt (z : Z)
| VStr (s : string)
| VList (l : list value)
| VDict (d : list (string * value)).

Definition dict : Type := list (string * value).

(** [bool(v)] *)
Definition truthy (v : value) : bool :=
  match v with
  | VNone => false
  | VBool b => b
  | VInt z => negb (Z.eqb z 0)
  | VStr s => negb (String.eqb s "")
  | VList l => match l with [] => false | _ => true end
  | VDict d => match d with [] => false | _ => true end
  end.

(** [a or b] *)
Definition py_or (a b : value) : value := if truthy a then a else b.

(** [v is True] *)
Definition is_True (v : value) : bool :=
  match v with VBool true => true | _ => false end.

Definition is_dict (v : value) : bool :=
  match v with VDict _ => true | _ => false end.

(** [a == b].  [bool] is a subtype of [int] ([True == 1]); lists compare
    element by element; dicts compare as maps.  On dicts with unique keys
    (all that JSON decoding and item assignment produce) the dict case is
    Python's: same size, and every entry of the left one is in the right
    one. *)
Fixpoint py_eq (a b : value) {struct a} : bool :=
  match a, b with
  | VNone, VNone => true
  | VBool x, VBool y => Bool.eqb x y
  | VBool x, VInt y => Z.eqb (Z.b2z x) y
  | VInt x, VBool y => Z.eqb x (Z.b2z y)
  | VInt x, VInt y => Z.eqb x y
  | VStr x, VStr y => String.eqb x y
  | VList xs, VList ys =>
      (fix all2 (xs ys : list value) {struct xs} : bool :=
         match xs, ys with
         | [], [] => true
         | x :: xs', y :: ys' => py_eq x y && all2 xs' ys'
         | _, _ => false
         end) xs ys
  | VDict d1, VDict d2 =>
      Nat.eqb (List.length d1) (List.length d2) &&
      (fix sub (d : list (string * value)) {struct d} : bool :=
         match d with
         | [] => true
         | (k, v) :: d' =>
             existsb (fun e => String.eqb k (fst e) && py_eq v (snd e)) d2
             && sub d'
         end) d1
  | _, _ => false
  end.

(** [x in l] for a list [l]: some element equals [x]. *)
Definition py_in (x : value) (l : list value) : bool :=
  existsb (fun e => py_eq e x) l.

(** *** Dictionaries *)

Fixpoint dict_get (k : string) (d : dict) : option value :=
  match d with
  | [] => None
  | (k', v) :: d' => if String.eqb k k' then Some v else dict_get k d'
  end.

(** [k in d] *)
Definition dict_has (k : string) (d : dict) : bool :=
  match dict_get k d with Some _ => true | None => false end.

(** [d.get(k)] *)
Definition get (k : string) (d : dict) : value :=
  match dict_get k d with Some v => v | None => VNone end.

(** [d.get(k, dflt)] *)
Definition get_default (k : string) (dflt : value) (d : dict) : value :=
  match dict_get k d with Some v => v | None => dflt end.

(** [k in d and isinstance(d[k], dict)], with the dict *)
Definition get_dict (k : string) (d : dict) : option dict :=
  match dict_get k d with
  | Some (VDict x) => Some x
  | _ => None
  end.

(** [k in d and isinstance(d[k], list)], with the list *)
Definition get_list (k : string) (d : dict) : option (list value) :=
  match dict_get k d with
  | Some (VList x) => Some x
  | _ => None
  end.

(** [d[k] = v]: an existing key keeps its position, a new one goes last. *)
Fixpoint dict_set (k : string) (v : value) (d : dict) : dict :=
  match d with
  | [] => [(k, v)]
  | (k', v') :: d' =>
      if String.eqb k k' then (k', v) :: d' else (k', v') :: dict_set k v d'
  end.

(** [d.pop(k, None)] *)
Fixpoint dict_pop (k : string) (d : dict) : dict :=
  match d with
  | [] => []
  | (k', v') :: d' =>
      if String.eqb k k' then dict_pop k d' else (k', v') :: dict_pop k d'
  end.

(** [d.values()] *)
Definition values (d : dict) : list value := map snd d.

(** *** Strings *)

Definition lower_ascii (c : ascii) : ascii :=
  let n := nat_of_ascii c in
  if (Nat.leb 65 n && Nat.leb n 90)%bool then ascii_of_nat (n + 32) else c.

(** [s.lower()] *)
Fixpoint lower (s : string) : string :=
  match s with
  | EmptyString => EmptyString
  | String c s' => String (lower_ascii c) (lower s')
  end.

(** [s.startswith(p)] *)
Definition startswith (p s : string) : bool := String.prefix p s.

(** [sub in s] *)
Fixpoint contains (sub s : string) : bool :=
  (String.prefix sub s ||
   match s with
   | EmptyString => false
   | String _ s' => contains sub s'
   end)%bool.

Definition is_space (c : ascii) : bool :=
  let n := nat_of_ascii c in
  ((Nat.leb 9 n && Nat.leb n 13) || (Nat.leb 28 n && Nat.leb n 32))%bool.

Fixpoint lstrip (s : string) : string :=
  match s with
  | EmptyString => EmptyString
  | String c s' => if is_space c then lstrip s' else s
  end.

Fixpoint rstrip (s : string) : string :=
  match s with
  | EmptyString => EmptyString
  | String c s' =>
      match rstrip s' with
      | EmptyString => if is_space c then EmptyString else String c EmptyString
      | r => String c r
      end
  end.

(** [s.strip()] *)
Definition strip (s : string) : string := rstrip (lstrip s).

(** [s.split(',')]: the pieces between commas; never empty. *)
Fixpoint split_comma (s : string) : list string :=
  match s with
  | EmptyString => [EmptyString]
  | String c s' =>
      if Ascii.eqb c ","%char then EmptyString :: split_comma s'
      else match split_comma s' with
           | [] => [String c EmptyString]
           | p :: ps => String c p :: ps
           end
  end.

(** [str(z)] for an integer *)
Definition str_of_Z (z : Z) : string := NilZero.string_of_int (Z.to_int z).

(** [str(v)] for the values an indexer id can hold once it has passed a
    dictionary lookup (hashable and truthy). *)
Definition py_str (v : value) : string :=
  match v with
  | VNone => "None"
  | VBool true => "True"
  | VBool false => "False"
  | VInt z => str_of_Z z
  | VStr s => s
  | VList _ => "[...]"
  | VDict _ => "{...}"
  end.

(** *** [int(v)]

    [None] when the conversion raises.  A string is stripped, may carry one
    sign, and must then be decimal digits, single underscores allowed
    between digits. *)

Definition digit_of (c : ascii) : option Z :=
  let n := nat_of_ascii c in
  if (Nat.leb 48 n && Nat.leb n 57)%bool then Some (Z.of_nat (n - 48)) else None.

(** [after_digit] tells whether the previous character was a digit: an
    underscore is legal only then, and the literal may end only then. *)
Fixpoint parse_digits (acc : Z) (after_digit : bool) (s : string) : option Z :=
  match s with
  | EmptyString => if after_digit then Some acc else None
  | String c s' =>
      match digit_of c with
      | Some d => parse_digits (acc * 10 + d)%Z true s'
      | None =>
          if (Ascii.eqb c "_"%char && after_digit)%bool
          then match s' with
               | EmptyString => None
               | String c' _ =>
                   match digit_of c' with
                   | Some _ => parse_digits acc false s'
                   | None => None
                   end
               end
          else None
      end
  end.

Definition int_of_string (s : string) : option Z :=
  match strip s with
  | String "-"%char s' => option_map Z.opp (parse_digits 0 false s')
  | String "+"%char s' => parse_digits 0 false s'
  | s' => parse_digits 0 false s'
  end.

Definition py_int (v : value) : option Z :=
  match v with
  | VBool b => Some (Z.b2z b)
  | VInt z => Some z
  | VStr s => int_of_string s
  | VNone | VList _ | VDict _ => None
  end.

(** *** Induction over values

    [value] nests in [list]; the induction hypothesis for a list or a dict
    covers every element. *)

Section ValueInd.
Variable P : value -> Prop.
Hypothesis HNone : P VNone.
Hypothesis HBool : forall b, P (VBool b).
Hypothesis HInt : forall z, P (VInt z).
Hypothesis HStr : forall s, P (VStr s).
Hypothesis HList : forall l, Forall P l -> P (VList l).
Hypothesis HDict : forall d, Forall (fun kv => P (snd kv)) d -> P (VDict d).

Fixpoint value_nested_ind (v : value) : P v :=
  match v with
  | VNone => HNone
  | VBool b => HBool b
  | VInt z => HInt z
  | VStr s => HStr s
  | VList l =>
      HList l
        ((fix go (l : list value) : Forall P l :=
            match l with
            | [] => Forall_nil P
            | x :: xs => Forall_cons x (value_nested_ind x) (go xs)
            end) l)
  | VDict d =>
      HDict d
        ((fix go (d : list (string * value)) : Forall (fun kv => P (snd kv)) d :=
            match d with
            | [] => Forall_nil _
            | kv :: d' => Forall_cons kv (value_nested_ind (snd kv)) (go d')
            end) d)
  end.
End ValueInd.

(** *** Exceptions *)

Definition exn : Type := string.

Inductive outcome (A : Type) : Type :=
| Ret (a : A)
| Raise (e : exn).
Arguments Ret {A} a.
Arguments Raise {A} e.

Definition AttributeError : exn := "AttributeError".
Definition TypeError : exn := "TypeError".
Definition ValueError : exn := "ValueError".

End Py.
Import Py.

(* ================================================================= *)
(** ** The pure helpers of [rotatarr.py] *)

Module Rotatarr.

(** *** [is_indexer_error] *)

Definition def_fields : list string :=
  ["definition"; "definitionId"; "definitionUid"; "implementation"].

(** The loop over [indexer['fields']].  [f.get('name').lower()] is
    evaluated as soon as the name is truthy; only a [str] has [lower]. *)
Fixpoint definitionfile_loop (fields : list value) : outcome bool :=
  match fields with
  | [] => Ret false
  | f :: rest =>
      match f with
      | VDict fd =>
          let name := get "name" fd in
          if truthy name then
            match name with
            | VStr s =>
                if String.eqb (lower s) "definitionfile" then
                  let val := get "value" fd in
                  if (negb (truthy val) && negb (py_eq val (VInt 0)))%bool
                  then Ret true
                  else definitionfile_loop rest
                else definitionfile_loop rest
            | _ => Raise AttributeError
            end
          else definitionfile_loop rest
      | _ => definitionfile_loop rest
      end
  end.

Definition is_indexer_error (indexer : dict) : outcome bool :=
  let state_field :=
    py_or (py_or (get "status" indexer) (get "state" indexer))
          (get "Status" indexer) in
  if match state_field with
     | VStr s => String.eqb (lower s) "error"
     | _ => false
     end
  then Ret true
  else if match state_field with
          | VDict sf =>
              truthy (py_or (get "mostRecentFailure" sf) (get "initialFailure" sf))
          | _ => false
          end
  then Ret true
  else if match get "configContract" indexer with
          | VDict cc => py_eq (get "name" cc) (VStr "error")
          | _ => false
          end
  then Ret true
  else if truthy (py_or (py_or (get "error" indexer) (get "errors" indexer))
                        (get "LastException" indexer))
  then Ret true
  else if truthy (get "lastError" indexer)
  then Ret true
  else
    let missing_def_count :=
      List.length (filter (fun k => negb (truthy (get k indexer))) def_fields) in
    if Nat.eqb missing_def_count (List.length def_fields)
    then Ret true
    else
      match
        match get "fields" indexer with
        | VList fields => definitionfile_loop fields
        | _ => Ret false
        end
      with
      | Raise e => Raise e
      | Ret true => Ret true
      | Ret false =>
          match get "message" indexer with
          | VDict m => Ret (py_eq (get "type" m) (VStr "error"))
          | _ => Ret false
          end
      end.

(** *** [get_alternate_base_urls] *)

(** [isinstance(v, str) and v.startswith('http')] *)
Definition is_http_str (v : value) : bool :=
  match v with
  | VStr s => startswith "http" s
  | _ => false
  end.

(** [isinstance(u, str) and u] *)
Definition is_nonempty_str (v : value) : bool :=
  match v with
  | VStr s => negb (String.eqb s "")
  | _ => false
  end.

(** The values contributed by the [fields] descriptors. *)
Fixpoint field_urls (fields : list value) : list value :=
  match fields with
  | [] => []
  | f :: rest =>
      match f with
      | VDict fd =>
          let v := py_or (get "value" fd) (get "Value" fd) in
          if is_http_str v then v :: field_urls rest else field_urls rest
      | _ => field_urls rest
      end
  end.

(** Everything appended to [candidates], in the order of the appends. *)
Definition collect_candidates (indexer : dict) : list value :=
  let settings :=
    py_or (py_or (get "settings" indexer) (get "Settings" indexer))
          (get_default "Settings" (VDict []) indexer) in
  let from_settings :=
    match settings with
    | VDict sd =>
        let baseurl :=
          py_or (py_or (get "baseUrl" sd) (get "BaseUrl" sd)) (get "BaseUrl" sd) in
        if truthy baseurl then [baseurl] else []
    | _ => []
    end in
  let urls :=
    fold_right (fun k acc => py_or (get k indexer) acc) (get "legacyurls" indexer)
      ["indexerUrls"; "indexerurls"; "urls"; "Urls"; "alternateUrls";
       "AlternateUrls"; "legacyUrls"] in
  let from_urls :=
    match urls with
    | VList us => filter is_nonempty_str us
    | _ => []
    end in
  let config :=
    py_or (py_or (py_or (get "config" indexer) (get "Config" indexer))
                 (get "configContract" indexer))
          (VDict []) in
  let from_config :=
    match config with
    | VDict cd => filter is_http_str (values cd)
    | _ => []
    end in
  let from_fields :=
    match get "fields" indexer with
    | VList fields => field_urls fields
    | _ => []
    end in
  from_settings ++ from_urls ++ from_config ++ from_fields.

(** The closing loop: [for c in candidates: if c not in out: out.append(c)]. *)
Definition dedup_step (out : list value) (c : value) : list value :=
  if negb (py_in c out) then out ++ [c] else out.

Definition dedup (candidates : list value) : list value :=
  fold_left dedup_step candidates [].

Definition get_alternate_base_urls (indexer : dict) : list value :=
  dedup (collect_candidates indexer).

(** *** [build_ui_test_payload] *)

Definition copy_key (k : string) (indexer out : dict) : dict :=
  match dict_get k indexer with
  | Some v => dict_set k v out
  | None => out
  end.

Definition copy_key_if (p : value -> bool) (k : string) (indexer out : dict) : dict :=
  match dict_get k indexer with
  | Some v => if p v then dict_set k v out else out
  | None => out
  end.

Definition is_list (v : value) : bool :=
  match v with VList _ => true | _ => false end.

Definition build_ui_test_payload (indexer : dict) : dict :=
  let out :=
    fold_left (fun out k => copy_key k indexer out)
      ["id"; "name"; "implementation"; "definitionId"; "definitionUid"] [] in
  let out := copy_key_if is_dict "settings" indexer out in
  let out := copy_key_if is_list "fields" indexer out in
  let out := copy_key_if is_list "indexerUrls" indexer out in
  copy_key_if is_list "legacyUrls" indexer out.

(** *** [set_base_url] *)

(** [for k in [...]: if k in config: config[k] = url; return] *)
Fixpoint set_first_present (ks : list string) (url : value) (cd : dict)
  : option dict :=
  match ks with
  | [] => None
  | k :: ks' =>
      if dict_has k cd then Some (dict_set k url cd)
      else set_first_present ks' url cd
  end.

(** [l[0:1] = [url]] *)
Definition set_slice_0_1 (url : value) (l : list value) : list value :=
  url :: tl l.

(** The loop over [indexer['fields']]: the first descriptor whose value is
    a string starting with [http] gets [url]. *)
Fixpoint set_first_url_field (url : value) (fields : list value) : list value :=
  match fields with
  | [] => []
  | f :: rest =>
      match f with
      | VDict fd =>
          if is_http_str (get "value" fd)
          then VDict (dict_set "value" url fd) :: rest
          else f :: set_first_url_field url rest
      | _ => f :: set_first_url_field url rest
      end
  end.

(** The code after [indexer['BaseUrl'] = url] when the key was absent. *)
Definition set_url_lists (indexer : dict) (url : value) : dict :=
  match get_list "indexerUrls" indexer with
  | Some l => dict_set "indexerUrls" (VList (set_slice_0_1 url l)) indexer
  | None =>
      match get_list "legacyUrls" indexer with
      | Some l => dict_set "legacyUrls" (VList (set_slice_0_1 url l)) indexer
      | None =>
          match get_list "fields" indexer with
          | Some fields =>
              dict_set "fields" (VList (set_first_url_field url fields)) indexer
          | None => indexer
          end
      end
  end.

Definition set_base_url (indexer : dict) (url : value) : dict :=
  match get_dict "settings" indexer with
  | Some sd =>
      if (dict_has "baseUrl" sd || dict_has "BaseUrl" sd)%bool then
        let sd := if dict_has "baseUrl" sd then dict_set "baseUrl" url sd else sd in
        let sd := if dict_has "BaseUrl" sd then dict_set "BaseUrl" url sd else sd in
        dict_set "settings" (VDict sd) indexer
      else dict_set "settings" (VDict (dict_set "baseUrl" url sd)) indexer
  | None =>
      match get_dict "config" indexer with
      | Some cd =>
          match set_first_present ["baseUrl"; "BaseUrl"; "url"; "Url"] url cd with
          | Some cd' => dict_set "config" (VDict cd') indexer
          | None => dict_set "config" (VDict (dict_set "baseUrl" url cd)) indexer
          end
      | None =>
          if dict_has "BaseUrl" indexer then dict_set "BaseUrl" url indexer
          else set_url_lists (dict_set "BaseUrl" url indexer) url
      end
  end.

(** *** [add_tag_to_indexer] *)

(** [any(isinstance(t, dict) and t.get('id') == tag_id_int for t in tags)] *)
Definition has_tag_object (n : Z) (tags : list value) : bool :=
  existsb (fun t => match t with
                    | VDict td => py_eq (get "id" td) (VInt n)
                    | _ => false
                    end) tags.

(** [tag_id] and [tag_label] as the first lines compute them. *)
Definition tag_id_of (tag : value) : value :=
  match tag with
  | VDict td => get "id" td
  | _ => tag
  end.

Definition tag_label_of (tag : value) : value :=
  match tag with
  | VDict td => py_or (get "label" td) (get "name" td)
  | _ => VNone
  end.

(** [tag_id_int]: [None] for an absent id and for one [int] rejects. *)
Definition tag_id_int_of (tag : value) : option Z :=
  match tag_id_of tag with
  | VNone => None
  | v => py_int v
  end.

Definition add_tag_id (n : Z) (indexer : dict) : dict :=
  match get_list "tagIds" indexer with
  | Some ids =>
      if negb (py_in (VInt n) ids)
      then dict_set "tagIds" (VList (ids ++ [VInt n])) indexer
      else indexer
  | None => dict_set "tagIds" (VList [VInt n]) indexer
  end.

Definition add_tag_object (n : Z) (label : value) (indexer : dict) : dict :=
  let tag_obj := VDict [("id", VInt n); ("label", label)] in
  match get_list "tags" indexer with
  | Some tags =>
      if negb (has_tag_object n tags)
      then dict_set "tags" (VList (tags ++ [tag_obj])) indexer
      else indexer
  | None => dict_set "tags" (VList [tag_obj]) indexer
  end.

Definition add_tag_to_indexer (indexer : dict) (tag : value) : dict :=
  let tag_label := tag_label_of tag in
  match tag_id_int_of tag with
  | Some n =>
      let indexer := add_tag_id n indexer in
      if truthy tag_label then add_tag_object n tag_label indexer else indexer
  | None => indexer
  end.

End Rotatarr.
Import Rotatarr.

(* ================================================================= *)
(** ** The recovery engine: [run_once] *)

Module Engine.

(** The module-level settings read from the environment.  The diagnostic
    mode ([INSPECT_INDEXERS]), which only logs and returns before any
    indexer is classified, is left out. *)
Record config : Type := {
  TEST_RETRIES : Z;
  TEST_RETRY_DELAY_SEC : Z;
  TAG_TO_TRY : string;
  TAG_FORCE : bool;
  DRY_RUN : bool;
  APPLY_TAG_SAVE_BEFORE_TEST : bool;
  FORCE_TEST_INDEXERS : string;
  INDEXER_MAX_ATTEMPTS : Z;
  INDEXER_COOLDOWN_MIN : Z;
  TEST_AS_UI : bool
}.

(** What the engine does to the outside, in order. *)
Inductive event : Type :=
| EvTest (payload : value)
| EvUpdate (idx_id payload : value)
| EvGet (idx_id : value)
| EvFindOrCreateTag (label : string)
| EvSleep (secs : Z)
| EvNow (now_ts : Z)
| EvSave (st : dict).

(** [ProwlarrClient] and the clock, over a world [W] of the caller's
    choice.  A call returns its JSON answer or raises; [get_indexer] answers
    with a record, as its signature says. *)
Record client (W : Type) : Type := {
  get_indexers : W -> outcome (list value) * W;
  get_indexer_statuses : W -> outcome (list value) * W;
  get_indexer : value -> W -> outcome dict * W;
  test_indexer : value -> W -> outcome value * W;
  update_indexer : value -> value -> W -> outcome value * W;
  find_or_create_tag : string -> W -> outcome value * W;
  time_now : W -> Z * W;
  time_sleep : Z -> W -> W
}.
Arguments get_indexers {W} c.
Arguments get_indexer_statuses {W} c.
Arguments get_indexer {W} c.
Arguments test_indexer {W} c.
Arguments update_indexer {W} c.
Arguments find_or_create_tag {W} c.
Arguments time_now {W} c.
Arguments time_sleep {W} c.

(** One element of [results['fixed']]. *)
Record fixed_entry : Type := {
  fx_indexer : value;
  fx_new_base_url : value;
  fx_tag : value
}.

Record results : Type := {
  fixed : list fixed_entry;
  skipped : list value;
  failed : list value
}.

Definition empty_results : results :=
  {| fixed := []; skipped := []; failed := [] |}.

(** The heap of one sweep: the world behind the client, the calls made so
    far, [indexer_state] (the dict in memory), the state file (a JSON object
    when it exists) and the [results] dict. *)
Record state (W : Type) : Type := {
  world : W;
  trace : list event;
  indexer_state : dict;
  state_file : option dict;
  res : results
}.
Arguments world {W} s.
Arguments trace {W} s.
Arguments indexer_state {W} s.
Arguments state_file {W} s.
Arguments res {W} s.

(** The local variables of [run_once] that the tag pass rebinds or mutates.
    [list_record] is the content of the object the indexer list holds;
    [idx] is that very object as long as [aliased] is set. *)
Record locals : Type := {
  idx : dict;
  list_record : dict;
  aliased : bool;
  tag_obj : value;
  saved_original : value;
  updated : bool
}.

(** [mutate f l]: an in-place change of the object [idx] names. *)
Definition mutate (f : dict -> dict) (l : locals) : locals :=
  {| idx := f (idx l);
     list_record := if aliased l then f (idx l) else list_record l;
     aliased := aliased l;
     tag_obj := tag_obj l;
     saved_original := saved_original l;
     updated := updated l |}.

(** [idx = client.get_indexer(idx_id)]: a new object; the old one keeps
    what it holds. *)
Definition rebind (d : dict) (l : locals) : locals :=
  {| idx := d;
     list_record := list_record l;
     aliased := false;
     tag_obj := tag_obj l;
     saved_original := saved_original l;
     updated := updated l |}.

Definition set_saved_original (v : value) (l : locals) : locals :=
  {| idx := idx l;
     list_record := list_record l;
     aliased := aliased l;
     tag_obj := tag_obj l;
     saved_original := v;
     updated := updated l |}.

Definition set_tag_obj (v : value) (l : locals) : locals :=
  {| idx := idx l;
     list_record := list_record l;
     aliased := aliased l;
     tag_obj := v;
     saved_original := saved_original l;
     updated := updated l |}.

Definition set_updated (l : locals) : locals :=
  {| idx := idx l;
     list_record := list_record l;
     aliased := aliased l;
     tag_obj := tag_obj l;
     saved_original := saved_original l;
     updated := true |}.

(** Where the processing of one indexer left the loop body. *)
Inductive exit_path : Type :=
| ExitMissingId                (* no id: recorded as skipped *)
| ExitNotError                 (* neither status nor heuristics flag it *)
| ExitNoCandidates             (* no base URL candidate: skipped *)
| ExitCooldown                 (* in cooldown and not forced: skipped *)
| ExitFixedAsIs                (* the record works as it is *)
| ExitFixedCandidate           (* a candidate of the first loop worked *)
| ExitFinished (l : locals)    (* ran to the last line of the body *)
| ExitException (l : option locals) (e : exn).
    (* the handler of the outer [try] ran; [l] holds the locals when the
       exception came from lines 706-726 *)

(** What a loop body asks for: [break], [continue], or go on with the
    statements after the [try]. *)
Inductive flow : Type := Break | Continue | Next.

(** *** The monad: state that survives exceptions *)

Definition M (W A : Type) : Type := state W -> outcome A * state W.

Definition ret {W A} (a : A) : M W A := fun s => (Ret a, s).

Definition raise {W A} (e : exn) : M W A := fun s => (Raise e, s).

Definition bind {W A B} (m : M W A) (k : A -> M W B) : M W B :=
  fun s =>
    match m s with
    | (Ret a, s') => k a s'
    | (Raise e, s') => (Raise e, s')
    end.

(** [try: m except Exception as e: h e] *)
Definition try_ {W A} (m : M W A) (h : exn -> M W A) : M W A :=
  fun s =>
    match m s with
    | (Ret a, s') => (Ret a, s')
    | (Raise e, s') => h e s'
    end.

Definition lift {W A} (o : outcome A) : M W A := fun s => (o, s).

Definition when {W} (b : bool) (m : M W unit) : M W unit :=
  if b then m else ret tt.

Declare Scope py_scope.
Delimit Scope py_scope with py.
Notation "x <- m ;; k" := (bind m (fun x => k))
  (at level 61, m at next level, right associativity) : py_scope.
Notation "m ;; k" := (bind m (fun _ => k))
  (at level 61, right associativity) : py_scope.
Local Open Scope py_scope.

(** *** State updates *)

Definition with_world {W} (w : W) (ev : list event) (s : state W) : state W :=
  {| world := w;
     trace := trace s ++ ev;
     indexer_state := indexer_state s;
     state_file := state_file s;
     res := res s |}.

(** The state file after [_save_indexer_state(d)]; the file is taken to be
    writable. *)
Definition with_state_file {W} (d : dict) (s : state W) : state W :=
  {| world := world s;
     trace := trace s ++ [EvSave d];
     indexer_state := indexer_state s;
     state_file := Some d;
     res := res s |}.

Definition with_indexer_state {W} (d : dict) (s : state W) : state W :=
  {| world := world s;
     trace := trace s;
     indexer_state := d;
     state_file := state_file s;
     res := res s |}.

Definition with_res {W} (r : results) (s : state W) : state W :=
  {| world := world s;
     trace := trace s;
     indexer_state := indexer_state s;
     state_file := state_file s;
     res := r |}.

(** Binding and reading the variable [results]. *)
Definition set_results {W} (r : results) : M W unit :=
  fun s => (Ret tt, with_res r s).

Definition get_results {W} : M W results :=
  fun s => (Ret (res s), s).

Definition append_fixed {W} (e : fixed_entry) : M W unit :=
  fun s =>
    (Ret tt,
     with_res {| fixed := fixed (res s) ++ [e];
                 skipped := skipped (res s);
                 failed := failed (res s) |} s).

Definition append_skipped {W} (v : value) : M W unit :=
  fun s =>
    (Ret tt,
     with_res {| fixed := fixed (res s);
                 skipped := skipped (res s) ++ [v];
                 failed := failed (res s) |} s).

Definition append_failed {W} (v : value) : M W unit :=
  fun s =>
    (Ret tt,
     with_res {| fixed := fixed (res s);
                 skipped := skipped (res s);
                 failed := failed (res s) ++ [v] |} s).

(** [_load_indexer_state()]: what the file holds, [{}] without a file. *)
Definition _load_indexer_state {W} : M W dict :=
  fun s => (Ret (match state_file s with Some d => d | None => [] end), s).

(** [_save_indexer_state(state)] *)
Definition _save_indexer_state {W} (st : dict) : M W unit :=
  fun s => (Ret tt, with_state_file st s).

(** Reading and rebinding the variable [indexer_state] (and what it
    refers to: the dict is changed in place). *)
Definition get_indexer_state {W} : M W dict :=
  fun s => (Ret (indexer_state s), s).

Definition set_indexer_state {W} (d : dict) : M W unit :=
  fun s => (Ret tt, with_indexer_state d s).

Section WithClient.

Context {W : Type} (cl : client W) (cfg : config).

(** *** Calls to the client and the clock *)

Definition call_get_indexers : M W (list value) :=
  fun s => let '(r, w) := get_indexers cl (world s) in (r, with_world w [] s).

Definition call_get_indexer_statuses : M W (list value) :=
  fun s => let '(r, w) := get_indexer_statuses cl (world s) in (r, with_world w [] s).

Definition call_test (payload : value) : M W value :=
  fun s =>
    let '(r, w) := test_indexer cl payload (world s) in
    (r, with_world w [EvTest payload] s).

Definition call_update (idx_id payload : value) : M W value :=
  fun s =>
    let '(r, w) := update_indexer cl idx_id payload (world s) in
    (r, with_world w [EvUpdate idx_id payload] s).

Definition call_get (idx_id : value) : M W dict :=
  fun s =>
    let '(r, w) := get_indexer cl idx_id (world s) in
    (r, with_world w [EvGet idx_id] s).

Definition call_find_or_create_tag (label : string) : M W value :=
  fun s =>
    let '(r, w) := find_or_create_tag cl label (world s) in
    (r, with_world w [EvFindOrCreateTag label] s).

(** [int(time.time())] *)
Definition call_now : M W Z :=
  fun s => let '(t, w) := time_now cl (world s) in (Ret t, with_world w [EvNow t] s).

(** [time.sleep(secs)]; a negative duration is a [ValueError]. *)
Definition py_sleep (secs : Z) : M W unit :=
  fun s =>
    if (secs <? 0)%Z then (Raise ValueError, s)
    else (Ret tt, with_world (time_sleep cl secs (world s)) [EvSleep secs] s).

(** *** Reading a test response *)

(** One item of a list response. *)
Definition task_ok (r : value) : bool :=
  match r with
  | VDict rd =>
      (is_True (get "success" rd) || py_eq (get "status" rd) (VStr "Success"))%bool
  | _ => false
  end.

(** [ok_local] of lines 389-398 (and [ok_tag] of 546-555). *)
Definition response_ok (test_res : value) : bool :=
  match test_res with
  | VDict d =>
      ((is_True (get "success" d) || is_True (get "isSuccess" d))
       || existsb is_True (values d))%bool
  | VList l => existsb task_ok l
  | _ => false
  end.

(** [ui_ok] of lines 410-417. *)
Definition response_ok_ui (ui_res : value) : bool :=
  match ui_res with
  | VDict d => (is_True (get "success" d) || is_True (get "isSuccess" d))%bool
  | VList l => existsb task_ok l
  | _ => false
  end.

(** The transient signature looked for in [str(e).lower()]. *)
Definition is_transient (e : exn) : bool :=
  let msg := lower e in
  (contains "429" msg || contains "toomanyrequests" msg || contains "timeout" msg)%bool.

(** [ui_payload and ui_payload != test_obj] *)
Definition ui_differs (ui_payload : dict) (test_obj : value) : bool :=
  (truthy (VDict ui_payload) && negb (py_eq (VDict ui_payload) test_obj))%bool.

(** *** [_perform_test_with_retries] *)

(** Lines 403-423: with [TEST_AS_UI], one more test with the minimal
    payload, its errors swallowed. *)
Definition ui_followup (test_obj : value) : M W bool :=
  try_
    (let ui_payload :=
       build_ui_test_payload (match test_obj with VDict d => d | _ => [] end) in
     if ui_differs ui_payload test_obj then
       ui_res <- call_test (VDict ui_payload) ;;
       ret (response_ok_ui ui_res)
     else ret false)
    (fun _ => ret false).

(** The [for attempt in range(0, TEST_RETRIES + 1)] loop, [remaining]
    iterations from [attempt] on.  Falling off the loop returns [None]. *)
Fixpoint retry_loop (remaining : nat) (attempt : Z) (test_obj : value)
  : M W bool :=
  match remaining with
  | O => ret false
  | S remaining' =>
      try_
        (test_res <- call_test test_obj ;;
         if response_ok test_res then ret true
         else if TEST_AS_UI cfg then ui_followup test_obj
         else ret false)
        (fun e =>
           if ((attempt <? TEST_RETRIES cfg)%Z && is_transient e)%bool then
             py_sleep (TEST_RETRY_DELAY_SEC cfg * (attempt + 1)) ;;
             retry_loop remaining' (attempt + 1) test_obj
           else raise e)
  end.

Definition _perform_test_with_retries (test_obj : value) : M W bool :=
  retry_loop (Z.to_nat (TEST_RETRIES cfg + 1)) 0 test_obj.

(** Lines 533-545: the same loop written out for the candidate-with-tag
    test; it yields the raw response ([None] when no attempt is made). *)
Fixpoint tag_test_loop (remaining : nat) (attempt : Z) (test_obj_tag : value)
  : M W value :=
  match remaining with
  | O => ret VNone
  | S remaining' =>
      try_ (call_test test_obj_tag)
        (fun e =>
           if ((attempt <? TEST_RETRIES cfg)%Z && is_transient e)%bool then
             py_sleep (TEST_RETRY_DELAY_SEC cfg * (attempt + 1)) ;;
             tag_test_loop remaining' (attempt + 1) test_obj_tag
           else raise e)
  end.

(** *** Pieces of the loop body of [run_once] *)

(** [{'id': -1, 'label': TAG_TO_TRY}] *)
Definition placeholder_tag : value :=
  VDict [("id", VInt (-1)); ("label", VStr (TAG_TO_TRY cfg))].

Definition tag_configured : bool := truthy (VStr (TAG_TO_TRY cfg)).

(** The way every [fixed] entry is built. *)
Definition mk_fixed (idx : dict) (new_base_url tag : value) : fixed_entry :=
  {| fx_indexer := VDict idx; fx_new_base_url := new_base_url; fx_tag := tag |}.

(** Lines 458-463 (and their copies): forget the indexer's failure state
    and rewrite the file. *)
Definition clear_failure_state (state_key : string) : M W unit :=
  st <- get_indexer_state ;;
  if dict_has state_key st then
    set_indexer_state (dict_pop state_key st) ;;
    _save_indexer_state (dict_pop state_key st)
  else ret tt.

(** [if not DRY_RUN: client.update_indexer(idx_id, payload)] *)
Definition save_unless_dry_run (idx_id payload : value) : M W unit :=
  when (negb (DRY_RUN cfg)) (_ <- call_update idx_id payload ;; ret tt).

(** Lines 435-453: the record as it is, then its minimal payload. *)
Definition as_is_trial (idx : dict) : M W bool :=
  let test_obj := VDict idx in
  ok <- try_ (_perform_test_with_retries test_obj) (fun _ => ret false) ;;
  if negb ok then
    let ui_payload := build_ui_test_payload idx in
    if ui_differs ui_payload test_obj
    then try_ (_perform_test_with_retries (VDict ui_payload)) (fun _ => ret ok)
    else ret ok
  else ret ok.

(** Lines 472-519: one candidate, full payload then minimal payload. *)
Definition candidate_trial (idx_id : value) (state_key : string) (idx : dict)
    (tag_obj candidate : value) : M W flow :=
  let test_obj := set_base_url idx candidate in
  try_
    (ok <- _perform_test_with_retries (VDict test_obj) ;;
     if ok then
       save_unless_dry_run idx_id (VDict test_obj) ;;
       append_fixed (mk_fixed idx candidate tag_obj) ;;
       clear_failure_state state_key ;;
       ret Break
     else
       let ui_candidate := build_ui_test_payload test_obj in
       if ui_differs ui_candidate (VDict test_obj) then
         try_
           (ok <- _perform_test_with_retries (VDict ui_candidate) ;;
            if ok then
              save_unless_dry_run idx_id (VDict ui_candidate) ;;
              append_fixed (mk_fixed idx candidate tag_obj) ;;
              ret Break
            else ret Next)
           (fun _ => ret Next)
       else ret Next)
    (fun _ => ret Continue).

(** Lines 521-600: the same candidate again with the tag attached.  The
    tag lookup of line 527 is outside every inner [try].  Yields the flow
    and the new [tag_obj].  Line 582 rebinds [idx] to the record read back
    from the service; the only use of that binding is the entry appended to
    [fixed] on the next line, after which the loop is left. *)
Definition candidate_tag_trial (idx_id : value) (state_key : string)
    (idx : dict) (candidate : value) : M W (flow * value) :=
  tag_obj <- (if negb (DRY_RUN cfg)
              then call_find_or_create_tag (TAG_TO_TRY cfg)
              else ret placeholder_tag) ;;
  let test_obj_tag := add_tag_to_indexer (set_base_url idx candidate) tag_obj in
  try_
    (test_res_tag <-
       tag_test_loop (Z.to_nat (TEST_RETRIES cfg + 1)) 0 (VDict test_obj_tag) ;;
     if response_ok test_res_tag then
       save_unless_dry_run idx_id (VDict test_obj_tag) ;;
       append_fixed (mk_fixed idx candidate tag_obj) ;;
       clear_failure_state state_key ;;
       ret (Break, tag_obj)
     else
       let ui_candidate_tag := build_ui_test_payload test_obj_tag in
       if ui_differs ui_candidate_tag (VDict test_obj_tag) then
         try_
           (ok_tag2 <- _perform_test_with_retries (VDict ui_candidate_tag) ;;
            if ok_tag2 then
              idx' <- (if negb (DRY_RUN cfg)
                       then _ <- call_update idx_id (VDict test_obj_tag) ;;
                            call_get idx_id
                       else ret idx) ;;
              append_fixed (mk_fixed idx' candidate tag_obj) ;;
              ret (Break, tag_obj)
            else ret (Next, tag_obj))
           (fun _ => ret (Next, tag_obj))
       else ret (Next, tag_obj))
    (fun _ => ret (Next, tag_obj)).

(** Lines 467-600: [for candidate in base_urls].  Yields [updated] and
    the last [tag_obj]. *)
Fixpoint candidate_loop (idx_id : value) (state_key : string) (idx : dict)
    (tag_obj : value) (base_urls : list value) : M W (bool * value) :=
  match base_urls with
  | [] => ret (false, tag_obj)
  | candidate :: rest =>
      f <- candidate_trial idx_id state_key idx tag_obj candidate ;;
      match f with
      | Break => ret (true, tag_obj)
      | Continue => candidate_loop idx_id state_key idx tag_obj rest
      | Next =>
          if tag_configured then
            r <- candidate_tag_trial idx_id state_key idx candidate ;;
            match fst r with
            | Break => ret (true, snd r)
            | _ => candidate_loop idx_id state_key idx (snd r) rest
            end
          else candidate_loop idx_id state_key idx tag_obj rest
      end
  end.

(** *** The tag pass (lines 602-705) *)

Definition save_before_test : bool :=
  (APPLY_TAG_SAVE_BEFORE_TEST cfg && negb (DRY_RUN cfg))%bool.

(** Lines 602-610 *)
Definition ensure_tag_obj (l : locals) : M W locals :=
  match tag_obj l with
  | VNone =>
      if negb (DRY_RUN cfg) then
        t <- try_ (call_find_or_create_tag (TAG_TO_TRY cfg))
                  (fun _ => ret placeholder_tag) ;;
        ret (set_tag_obj t l)
      else ret (set_tag_obj placeholder_tag l)
  | _ => ret l
  end.

(** Lines 618-629 and 672-685: in save-before-test mode [idx] itself is
    changed by [change], pushed to the service and read back; the read-back
    record becomes both [idx] and the payload to test. *)
Definition persist_before_test (idx_id : value) (change : dict -> dict)
    (l : locals) (test_obj_tag : dict) : M W (locals * dict) :=
  if save_before_test then
    let l := set_saved_original (VDict (idx l)) l in
    let l := mutate change l in
    try_
      (_ <- call_update idx_id (VDict (idx l)) ;;
       idx' <- call_get idx_id ;;
       ret (rebind idx' l, idx'))
      (fun _ => ret (l, test_obj_tag))
  else ret (l, test_obj_tag).

(** Lines 656-663 and 698-705: after an exception in save-before-test
    mode, push [saved_original] back and read the record again. *)
Definition revert_after_exception (idx_id : value) (l : locals) : M W locals :=
  if save_before_test then
    try_
      (_ <- call_update idx_id (saved_original l) ;;
       idx' <- call_get idx_id ;;
       ret (rebind idx' l))
      (fun _ => ret l)
  else ret l.

(** Lines 611-663: the original record with the tag. *)
Definition original_tag_trial (idx_id : value) (state_key : string)
    (l : locals) : M W locals :=
  let test_obj_tag := add_tag_to_indexer (idx l) (tag_obj l) in
  let l := set_saved_original VNone l in
  r <- persist_before_test idx_id
         (fun d => add_tag_to_indexer d (tag_obj l)) l test_obj_tag ;;
  let '(l, test_obj_tag) := r in
  try_
    (ok <- _perform_test_with_retries (VDict test_obj_tag) ;;
     ok <- (if negb ok then
              let ui_test_obj_tag := build_ui_test_payload test_obj_tag in
              if ui_differs ui_test_obj_tag (VDict test_obj_tag)
              then try_ (_perform_test_with_retries (VDict ui_test_obj_tag))
                        (fun _ => ret ok)
              else ret ok
            else ret ok) ;;
     if ok then
       save_unless_dry_run idx_id (VDict test_obj_tag) ;;
       append_fixed (mk_fixed (idx l) VNone (tag_obj l)) ;;
       clear_failure_state state_key ;;
       ret (set_updated l)
     else ret l)
    (fun _ => revert_after_exception idx_id l).

(** Lines 665-705: every candidate with the tag. *)
Fixpoint tag_candidate_loop (idx_id : value) (l : locals)
    (base_urls : list value) : M W locals :=
  match base_urls with
  | [] => ret l
  | candidate :: rest =>
      let test_obj_tag :=
        add_tag_to_indexer (set_base_url (idx l) candidate) (tag_obj l) in
      r <- persist_before_test idx_id
             (fun d => set_base_url (add_tag_to_indexer d (tag_obj l)) candidate)
             l test_obj_tag ;;
      let '(l, test_obj_tag) := r in
      l <- try_
             (ok <- _perform_test_with_retries (VDict test_obj_tag) ;;
              if ok then
                save_unless_dry_run idx_id (VDict test_obj_tag) ;;
                append_fixed (mk_fixed (idx l) candidate (tag_obj l)) ;;
                ret (set_updated l)
              else ret l)
             (fun _ => revert_after_exception idx_id l) ;;
      if updated l then ret l else tag_candidate_loop idx_id l rest
  end.

(** The tag pass as a whole. *)
Definition tag_pass (idx_id : value) (state_key : string) (l : locals)
    (base_urls : list value) : M W locals :=
  l <- ensure_tag_obj l ;;
  l <- original_tag_trial idx_id state_key l ;;
  if negb (updated l) then tag_candidate_loop idx_id l base_urls else ret l.

(** *** Failure bookkeeping (lines 706-726) *)

(** [v + 1] *)
Definition py_succ (v : value) : outcome Z :=
  match v with
  | VInt z => Ret (z + 1)%Z
  | VBool b => Ret (Z.b2z b + 1)%Z
  | _ => Raise TypeError
  end.

(** [now_ts < v] *)
Definition py_lt_int (now_ts : Z) (v : value) : outcome bool :=
  match v with
  | VInt z => Ret (now_ts <? z)%Z
  | VBool b => Ret (now_ts <? Z.b2z b)%Z
  | _ => Raise TypeError
  end.

(** [indexer_state.get(state_key, {})], which must be a dict for the
    [.get] that follows. *)
Definition idx_state_of (state_key : string) (st : dict) : outcome dict :=
  match get_default state_key (VDict []) st with
  | VDict idx_state => Ret idx_state
  | _ => Raise AttributeError
  end.

(** Lines 711-718: the entry after one more failed sweep. *)
Definition bump_failures (now_ts fail_count : Z) (idx_state : dict) : dict :=
  if (fail_count >=? INDEXER_MAX_ATTEMPTS cfg)%Z then
    let cooldown_until := (now_ts + INDEXER_COOLDOWN_MIN cfg * 60)%Z in
    dict_set "consecutive_failures" (VInt 0)
      (dict_set "next_allowed_at" (VInt cooldown_until) idx_state)
  else dict_set "consecutive_failures" (VInt fail_count) idx_state.

(** Lines 709-723 *)
Definition record_failure (state_key : string) (now_ts : Z) : M W unit :=
  st <- get_indexer_state ;;
  idx_state <- lift (idx_state_of state_key st) ;;
  fail_count <-
    lift (py_succ (get_default "consecutive_failures" (VInt 0) idx_state)) ;;
  let st' :=
    dict_set state_key (VDict (bump_failures now_ts fail_count idx_state)) st in
  set_indexer_state st' ;;
  _save_indexer_state st'.

(** Lines 706-726: what runs once the first candidate loop has ended
    without success, after the tag pass (if any). *)
Definition epilogue (idx_id : value) (state_key : string) (now_ts : Z)
    (original : dict) (l : locals) : M W unit :=
  when (negb (updated l)) (record_failure state_key now_ts) ;;
  save_unless_dry_run idx_id (VDict original) ;;
  append_failed (VDict (idx l)).

(** *** The gates (lines 342-379) *)

(** [[n.strip().lower() for n in FORCE_TEST_INDEXERS.split(',') if n.strip()]] *)
Definition forced_names : list string :=
  map (fun n => lower (strip n))
      (filter (fun n => negb (String.eqb (strip n) ""))
              (split_comma (FORCE_TEST_INDEXERS cfg))).

(** [idx.get('name') and idx.get('name').lower() in forced_names] *)
Definition forced_by_name (idx : dict) : outcome bool :=
  let name := get "name" idx in
  if truthy name then
    match name with
    | VStr s => Ret (existsb (String.eqb (lower s)) forced_names)
    | _ => Raise AttributeError
    end
  else Ret false.

Definition forced_by_id (idx_id : value) : bool :=
  existsb (String.eqb (py_str idx_id)) forced_names.

(** Lines 368-376: is the indexer to be left alone for now? *)
Definition in_cooldown (idx : dict) (idx_id : value) (state_key : string)
    (now_ts : Z) (st : dict) : outcome bool :=
  match idx_state_of state_key st with
  | Raise e => Raise e
  | Ret idx_state =>
      let next_allowed_at := get "next_allowed_at" idx_state in
      match forced_by_name idx with
      | Raise e => Raise e
      | Ret by_name =>
          if truthy next_allowed_at then
            match py_lt_int now_ts next_allowed_at with
            | Raise e => Raise e
            | Ret early =>
                Ret (early && negb (by_name || forced_by_id idx_id))%bool
            end
          else Ret false
      end
  end.

Definition initial_locals (idx : dict) (tag_obj : value) : locals :=
  {| idx := idx; list_record := idx; aliased := true; tag_obj := tag_obj;
     saved_original := VNone; updated := false |}.

(** *** The body of the outer [try] (lines 341-726)

    Two header lines of the script are lost between its lines 600 and 602
    (the text resumes in the middle of a comment, two indentation levels
    deeper than the statements of lines 706-726).  They are restored as
    [if not updated:] around lines 602-726 and [if TAG_TO_TRY:] around
    lines 602-705, which is what the indentation of the surviving lines and
    the specification's step 4 require: the tag pass runs when a recovery
    tag is configured and nothing before it succeeded. *)

(** Up to the end of the tag pass.  [inl] is an exit taken on the way,
    [inr] the locals with which line 706 is reached. *)
Definition trials (idx : dict) (idx_id : value)
  : M W (exit_path + (string * Z * list value * locals)) :=
  let base_urls := get_alternate_base_urls idx in
  if negb (truthy (VList base_urls)) then
    append_skipped (VDict idx) ;; ret (inl ExitNoCandidates)
  else
    tag_obj <- (if (tag_configured && TAG_FORCE cfg)%bool then
                  if negb (DRY_RUN cfg)
                  then call_find_or_create_tag (TAG_TO_TRY cfg)
                  else ret placeholder_tag
                else ret VNone) ;;
    let state_key := py_str idx_id in
    now_ts <- call_now ;;
    st <- get_indexer_state ;;
    cool <- lift (in_cooldown idx idx_id state_key now_ts st) ;;
    if (cool : bool) then
      append_skipped (VDict idx) ;; ret (inl ExitCooldown)
    else
      ok <- as_is_trial idx ;;
      if (ok : bool) then
        append_fixed (mk_fixed idx VNone VNone) ;;
        clear_failure_state state_key ;;
        ret (inl ExitFixedAsIs)
      else
        r <- candidate_loop idx_id state_key idx tag_obj base_urls ;;
        if fst r then ret (inl ExitFixedCandidate)
        else
          let l := initial_locals idx (snd r) in
          l <- (if tag_configured
                then tag_pass idx_id state_key l base_urls
                else ret l) ;;
          ret (inr (state_key, now_ts, base_urls, l)).

(** The whole [try ... except Exception] of one indexer.  The handler
    records the record [idx] is bound to at that moment: the one of the
    list until the tag pass, which itself lets no exception out. *)
Definition guarded_body (idx : dict) (idx_id : value) : M W exit_path :=
  try_
    (r <- trials idx idx_id ;;
     match r with
     | inl e => ret e
     | inr (state_key, now_ts, _, l) =>
         try_
           (epilogue idx_id state_key now_ts idx l ;; ret (ExitFinished l))
           (fun e =>
              append_failed (VDict (Engine.idx l)) ;;
              ret (ExitException (Some l) e))
     end)
    (fun e => append_failed (VDict idx) ;; ret (ExitException None e)).

(** *** The status map (line 254) *)

Definition hashable (v : value) : bool :=
  match v with
  | VList _ | VDict _ => false
  | _ => true
  end.

Fixpoint status_map_set (k : value) (sd : dict) (m : list (value * dict))
  : list (value * dict) :=
  match m with
  | [] => [(k, sd)]
  | (k', sd') :: m' =>
      if py_eq k' k then (k', sd) :: m' else (k', sd') :: status_map_set k sd m'
  end.

(** [{s.get('indexerId'): s for s in statuses if isinstance(s, dict)}] *)
Fixpoint build_status_map (statuses : list value) (m : list (value * dict))
  : outcome (list (value * dict)) :=
  match statuses with
  | [] => Ret m
  | VDict sd :: rest =>
      let k := get "indexerId" sd in
      if hashable k then build_status_map rest (status_map_set k sd m)
      else Raise TypeError
  | _ :: rest => build_status_map rest m
  end.

(** [status_map.get(idx_id)] *)
Definition status_lookup (m : list (value * dict)) (idx_id : value)
  : outcome (option dict) :=
  if hashable idx_id
  then Ret (option_map snd (find (fun e => py_eq (fst e) idx_id) m))
  else Raise TypeError.

(** [s and (s.get('mostRecentFailure') or s.get('disabledTill'))] *)
Definition status_failure (s : option dict) : bool :=
  match s with
  | Some sd =>
      (truthy (VDict sd)
       && truthy (py_or (get "mostRecentFailure" sd) (get "disabledTill" sd)))%bool
  | None => false
  end.

(** *** One iteration of [for idx in indexers] (lines 322-729)

    Lines 322-336 are outside the [try]: what raises there leaves
    [run_once]. The tests of lines 337 and 343 cannot succeed after line
    323 and are left out. *)
Definition process_indexer (status_map : list (value * dict)) (idx_v : value)
  : M W exit_path :=
  match idx_v with
  | VDict idx =>
      let idx_id := py_or (get "id" idx) (get "Id" idx) in
      if negb (truthy idx_id) then
        append_skipped idx_v ;; ret ExitMissingId
      else
        s <- lift (status_lookup status_map idx_id) ;;
        if status_failure s then guarded_body idx idx_id
        else
          err <- lift (is_indexer_error idx) ;;
          if negb err then ret ExitNotError
          else guarded_body idx idx_id
  | _ => raise AttributeError
  end.

Fixpoint process_all (status_map : list (value * dict)) (indexers : list value)
  : M W (list exit_path) :=
  match indexers with
  | [] => ret []
  | idx_v :: rest =>
      e <- process_indexer status_map idx_v ;;
      es <- process_all status_map rest ;;
      ret (e :: es)
  end.

(** *** [run_once] *)

Definition run_once : M W results :=
  r <- try_
         (indexers <- call_get_indexers ;;
          statuses <- call_get_indexer_statuses ;;
          status_map <- lift (build_status_map statuses []) ;;
          ret (Some (indexers, status_map)))
         (fun _ => ret None) ;;
  match r with
  | None => ret empty_results
  | Some (indexers, status_map) =>
      set_results empty_results ;;
      st <- _load_indexer_state ;;
      set_indexer_state st ;;
      _ <- process_all status_map indexers ;;
      get_results
  end.

End WithClient.

End Engine.
Import Engine.

(* ================================================================= *)
(** ** Vocabulary of the specification

    Definitions the properties below are stated with.  They follow the
    wording of the specification, not the script. *)

Module Spec.

(** *** Python equality, unfolded *)

Fixpoint list_all2 (xs ys : list value) : bool :=
  match xs, ys with
  | [], [] => true
  | x :: xs', y :: ys' => py_eq x y && list_all2 xs' ys'
  | _, _ => false
  end.

Definition entry_in (d2 : dict) (kv : string * value) : bool :=
  existsb (fun e => String.eqb (fst kv) (fst e) && py_eq (snd kv) (snd e)) d2.

(** *** Deduplication

    Keep a candidate when it equals none of the candidates before it. *)

Fixpoint first_occurrences_from (before l : list value) : list value :=
  match l with
  | [] => []
  | c :: rest =>
      if py_in c before then first_occurrences_from (before ++ [c]) rest
      else c :: first_occurrences_from (before ++ [c]) rest
  end.
Definition first_occurrences (l : list value) : list value :=
  first_occurrences_from [] l.

(** *** Base URL locations *)

Inductive url_list : Type := IndexerUrls | LegacyUrls.

Definition url_list_key (f : url_list) : string :=
  match f with IndexerUrls => "indexerUrls" | LegacyUrls => "legacyUrls" end.

(** The places of a record that can hold a base URL. *)
Inductive location : Type :=
| SettingsKey (k : string)      (* indexer['settings'][k] *)
| ConfigKey (k : string)        (* indexer['config'][k] *)
| TopBaseUrl                    (* indexer['BaseUrl'] *)
| UrlListHead (f : url_list)    (* indexer['indexerUrls'][0], indexer['legacyUrls'][0] *)
| FieldValue (i : nat).         (* indexer['fields'][i]['value'] *)

Definition read (loc : location) (r : dict) : option value :=
  match loc with
  | SettingsKey k =>
      match get_dict "settings" r with Some sd => dict_get k sd | None => None end
  | ConfigKey k =>
      match get_dict "config" r with Some cd => dict_get k cd | None => None end
  | TopBaseUrl => dict_get "BaseUrl" r
  | UrlListHead f =>
      match get_list (url_list_key f) r with Some l => hd_error l | None => None end
  | FieldValue i =>
      match get_list "fields" r with
      | Some fields =>
          match nth_error fields i with
          | Some (VDict fd) => dict_get "value" fd
          | _ => None
          end
      | None => None
      end
  end.

(** The claim as stated: exactly one location holds a new value. *)
Definition rewrites_exactly_one (r r' : dict) : Prop :=
  exists loc, read loc r' <> read loc r
              /\ forall loc', read loc' r' <> read loc' r -> loc' = loc.

(** The first key of [ks] present in [cd], else the fallback [baseUrl]. *)
Fixpoint first_present (ks : list string) (cd : dict) : string :=
  match ks with
  | [] => "baseUrl"
  | k :: ks' => if dict_has k cd then k else first_present ks' cd
  end.

(** Index of the first descriptor whose value is an HTTP(S)-looking string. *)
Fixpoint first_url_field (fields : list value) : option nat :=
  match fields with
  | [] => None
  | f :: rest =>
      if match f with VDict fd => is_http_str (get "value" fd) | _ => false end
      then Some O
      else option_map S (first_url_field rest)
  end.

(** The locations one call writes, as the amended claim words them. *)
Definition targets (r : dict) : list location :=
  match get_dict "settings" r with
  | Some sd =>
      if (dict_has "baseUrl" sd || dict_has "BaseUrl" sd)%bool then
        (if dict_has "baseUrl" sd then [SettingsKey "baseUrl"] else [])
        ++ (if dict_has "BaseUrl" sd then [SettingsKey "BaseUrl"] else [])
      else [SettingsKey "baseUrl"]
  | None =>
      match get_dict "config" r with
      | Some cd => [ConfigKey (first_present ["baseUrl"; "BaseUrl"; "url"; "Url"] cd)]
      | None =>
          if dict_has "BaseUrl" r then [TopBaseUrl]
          else
            TopBaseUrl ::
            match get_list "indexerUrls" r with
            | Some _ => [UrlListHead IndexerUrls]
            | None =>
                match get_list "legacyUrls" r with
                | Some _ => [UrlListHead LegacyUrls]
                | None =>
                    match get_list "fields" r with
                    | Some fields =>
                        match first_url_field fields with
                        | Some i => [FieldValue i]
                        | None => []
                        end
                    | None => []
                    end
                end
            end
      end
  end.

(** Keys of the record under which a base URL location lives. *)
Definition url_keys : list string :=
  ["settings"; "config"; "BaseUrl"; "indexerUrls"; "legacyUrls"; "fields"].

(** [indexer['fields'][i]['value']] within the list of descriptors. *)
Definition field_value (fields : list value) (i : nat) : option value :=
  match nth_error fields i with
  | Some (VDict fd) => dict_get "value" fd
  | _ => None
  end.

(** *** Traces and frames *)

(** The clock readings among some events. *)
Fixpoint clock_reads (evs : list event) : list Z :=
  match evs with
  | [] => []
  | EvNow t :: rest => t :: clock_reads rest
  | _ :: rest => clock_reads rest
  end.

(** [quiet s s']: from [s] to [s'] the failure state and its file were left
    alone, the calls made were appended to the trace, and the clock was not
    read. *)
Definition quiet {W} (s s' : state W) : Prop :=
  indexer_state s' = indexer_state s
  /\ state_file s' = state_file s
  /\ exists evs, trace s' = trace s ++ evs /\ clock_reads evs = [].



(** [kept key s s']: from [s] to [s'] only the entry of [key] may have
    changed in the failure state, and the file still mirrors the state if it
    did before. *)
Definition kept {W} (key : string) (s s' : state W) : Prop :=
  (forall k, String.eqb k key = false ->
     dict_get k (indexer_state s') = dict_get k (indexer_state s))
  /\ (state_file s = Some (indexer_state s) ->
      state_file s' = Some (indexer_state s')).


(** *** The buckets of [results] *)











(** *** The retry policy *)

Local Open Scope Z_scope.

Section RetrySpec.
Context {W : Type} (cl : client W) (cfg : config).

(** What happens to a test that answered without raising and without
    success: with [TEST_AS_UI] the minimal payload gets one try. *)
Definition after_not_ok (test_obj : value) : M W bool :=
  if TEST_AS_UI cfg then ui_followup cl test_obj else ret false.

(** What [_perform_test_with_retries] makes of an answer. *)
Definition judge (test_obj res : value) : M W bool :=
  if response_ok res then ret true else after_not_ok test_obj.

(** The retry policy, in the specification's words.
    [retry_run on_answer t k a s r s']: starting with attempt number [a]
    (counted from 0) in state [s], testing payload [t] ends with [r] in
    state [s'] after [k] retries; [on_answer] is what the caller does with
    an answer of the service. *)
Inductive retry_run {A : Type} (on_answer : value -> M W A) (t : value)
  : nat -> Z -> state W -> outcome A -> state W -> Prop :=
(* the service answered: no retry, whatever the answer says *)
| run_answer a s res s1 r s2 :
    call_test cl t s = (Ret res, s1) ->
    on_answer res s1 = (r, s2) ->
    retry_run on_answer t 0 a s r s2
(* a non-transient error: no retry, the error goes to the caller *)
| run_abort a s e s1 :
    call_test cl t s = (Raise e, s1) ->
    is_transient e = false ->
    retry_run on_answer t 0 a s (Raise e) s1
(* a transient error after the last permitted retry *)
| run_exhausted a s e s1 :
    call_test cl t s = (Raise e, s1) ->
    is_transient e = true ->
    TEST_RETRIES cfg <= a ->
    retry_run on_answer t 0 a s (Raise e) s1
(* a transient error with retries left: wait delay * attempt number, resubmit *)
| run_retry k a s e s1 s2 r s3 :
    call_test cl t s = (Raise e, s1) ->
    is_transient e = true ->
    a < TEST_RETRIES cfg ->
    py_sleep cl (TEST_RETRY_DELAY_SEC cfg * (a + 1)) s1 = (Ret tt, s2) ->
    retry_run on_answer t k (a + 1) s2 r s3 ->
    retry_run on_answer t (S k) a s r s3.

End RetrySpec.

(** The waits of a run: the delay times 1, 2, ..., in this order. *)
Fixpoint sleeps (evs : list event) : list Z :=
  match evs with
  | [] => []
  | EvSleep n :: rest => n :: sleeps rest
  | _ :: rest => sleeps rest
  end.

Fixpoint backoff (delay : Z) (from : Z) (k : nat) : list Z :=
  match k with
  | O => []
  | S k' => delay * (from + 1) :: backoff delay (from + 1) k'
  end.

End Spec.
Import Spec.

(* ================================================================= *)
(** ** A scripted service for concrete runs *)

Module Fixtures.

Local Open Scope Z_scope.

(** A scripted service.  The world holds the record the service stores, the
    clock, and the answers still queued for [test_indexer]; once the queue
    is empty a test succeeds exactly on the payloads [test_ok] accepts. *)
Record service : Type := {
  stored : dict;
  clock : Z;
  script : list (outcome value)
}.

Definition success (b : bool) : value := VDict [("success", VBool b)].

Definition mock (indexers statuses : list value) (test_ok : value -> bool)
  : client service :=
  {| get_indexers := fun w => (Ret indexers, w);
     get_indexer_statuses := fun w => (Ret statuses, w);
     get_indexer := fun _ w => (Ret (stored w), w);
     test_indexer := fun payload w =>
       match script w with
       | [] => (Ret (success (test_ok payload)), w)
       | r :: rest => (r, {| stored := stored w; clock := clock w; script := rest |})
       end;
     update_indexer := fun _ payload w =>
       (Ret payload,
        {| stored := match payload with VDict d => d | _ => stored w end;
           clock := clock w; script := script w |});
     find_or_create_tag := fun label w =>
       (Ret (VDict [("id", VInt 7); ("label", VStr label)]), w);
     time_now := fun w => (clock w, w);
     time_sleep := fun secs w =>
       {| stored := stored w; clock := clock w + secs; script := script w |} |}.

(** The defaults of the script, with [DRY_RUN] off. *)
Definition default_config : config :=
  {| TEST_RETRIES := 2; TEST_RETRY_DELAY_SEC := 2; TAG_TO_TRY := "";
     TAG_FORCE := false; DRY_RUN := false; APPLY_TAG_SAVE_BEFORE_TEST := false;
     FORCE_TEST_INDEXERS := ""; INDEXER_MAX_ATTEMPTS := 3;
     INDEXER_COOLDOWN_MIN := 60; TEST_AS_UI := false |}.

Definition start (file : option dict) (answers : list (outcome value))
  : state service :=
  {| world := {| stored := []; clock := 1000; script := answers |};
     trace := []; indexer_state := []; state_file := file;
     res := empty_results |}.


Definition broken : dict :=
  [("id", VInt 5); ("name", VStr "beta"); ("status", VStr "error");
   ("implementation", VStr "Cardigann"); ("priority", VInt 25);
   ("settings", VDict [("baseUrl", VStr "http://old")]);
   ("indexerUrls", VList [VStr "http://old"; VStr "http://mirror"])].

Definition never : value -> bool := fun _ => false.

(** The minimal payload with the mirror is the only one the service accepts. *)
Definition only_minimal_mirror (payload : value) : bool :=
  match payload with
  | VDict d =>
      negb (dict_has "priority" d)
      && match get_dict "settings" d with
         | Some sd => py_eq (get "baseUrl" sd) (VStr "http://mirror")
         | None => false
         end
  | _ => false
  end.


Definition two_failures : dict :=
  [("5", VDict [("consecutive_failures", VInt 2)])].

(** A recovery tag, nothing saved before a test. *)
Definition plain_tag_config : config :=
  {| TEST_RETRIES := 2; TEST_RETRY_DELAY_SEC := 2; TAG_TO_TRY := "rot";
     TAG_FORCE := false; DRY_RUN := false; APPLY_TAG_SAVE_BEFORE_TEST := false;
     FORCE_TEST_INDEXERS := ""; INDEXER_MAX_ATTEMPTS := 3;
     INDEXER_COOLDOWN_MIN := 60; TEST_AS_UI := false |}.

Definition always : value -> bool := fun _ => true.

(** Every test of the first pass fails (two as-is tests, four per
    candidate); the first test of the tag pass succeeds. *)
Definition fails_until_tag_pass : list (outcome value) :=
  repeat (Ret (success false)) 10.

Definition rot_tag : value := VDict [("id", VInt 7); ("label", VStr "rot")].

Definition fixed_by_minimal_payload : outcome results * state service :=
  run_once (mock [VDict broken] [] only_minimal_mirror) default_config
    (start (Some two_failures) []).

(** The state of a sweep once the state file [st] has been loaded. *)
Definition loaded (st : dict) (answers : list (outcome value)) : state service :=
  {| world := {| stored := []; clock := 1000; script := answers |};
     trace := []; indexer_state := st; state_file := Some st;
     res := empty_results |}.

(** Two transient errors, then a success. *)
Definition flaky : list (outcome value) :=
  [Raise "Test indexer failed: HTTP 429: TooManyRequests";
   Raise "HTTPConnectionPool: Read timed out. (read timeout=30)";
   Ret (success true)].


End Fixtures.
Import Fixtures.

(* ================================================================= *)
(** ** Facts about Python equality and the candidate generator *)

Lemma py_eq_list xs ys : py_eq (VList xs) (VList ys) = list_all2 xs ys.
Proof.
  reflexivity.
Qed.

Lemma py_eq_dict d1 d2 :
  py_eq (VDict d1) (VDict d2)
  = (Nat.eqb (List.length d1) (List.length d2) && forallb (entry_in d2) d1)%bool.
Proof.
  simpl. f_equal.
  induction d1 as [|[k v] d1 IH]; simpl; [reflexivity|].
  unfold entry_in at 1; simpl. f_equal. apply IH.
Qed.

Lemma py_eq_refl v : py_eq v v = true.
Proof.
  induction v as [| b | z | s | l IH | d IH] using value_nested_ind.
  - reflexivity.
  - simpl. destruct b; reflexivity.
  - simpl. apply Z.eqb_refl.
  - simpl. apply String.eqb_refl.
  - rewrite py_eq_list. induction IH as [|x l Hx _ IHl]; simpl; [reflexivity|].
    rewrite Hx. exact IHl.
  - rewrite py_eq_dict, Nat.eqb_refl. simpl.
    apply forallb_forall. intros [k v] Hin.
    unfold entry_in. apply existsb_exists. exists (k, v). split; [exact Hin|].
    simpl. rewrite String.eqb_refl. simpl.
    rewrite Forall_forall in IH. exact (IH _ Hin).
Qed.

Lemma py_eq_trans a : forall b c,
  py_eq a b = true -> py_eq b c = true -> py_eq a c = true.
Proof.
  induction a as [| x | x | x | l IH | d IH] using value_nested_ind;
    intros b c Hab Hbc.
  - destruct b; try discriminate. exact Hbc.
  - destruct b as [| y | y | | |]; try discriminate Hab;
      destruct c as [| z | z | | |]; try discriminate Hbc; simpl in *;
      rewrite ?Z.eqb_eq, ?Bool.eqb_true_iff in *; subst;
      try reflexivity; destruct x; try destruct z; simpl in *; congruence.
  - destruct b as [| y | y | | |]; try discriminate Hab;
      destruct c as [| z | z | | |]; try discriminate Hbc; simpl in *;
      rewrite ?Z.eqb_eq, ?Bool.eqb_true_iff in *; subst;
      try reflexivity; destruct y; try destruct z; simpl in *; congruence.
  - destruct b; try discriminate Hab. destruct c; try discriminate Hbc.
    simpl in *. apply String.eqb_eq in Hab. subst. exact Hbc.
  - destruct b as [| | | | lb |]; try discriminate Hab.
    destruct c as [| | | | lc |]; try discriminate Hbc.
    rewrite py_eq_list in *.
    revert lb lc Hab Hbc.
    induction IH as [|x l Hx _ IHl]; intros [|y lb] [|z lc] Hab Hbc;
      simpl in *; try discriminate; try reflexivity.
    apply andb_true_iff in Hab as [H1 H2]. apply andb_true_iff in Hbc as [H3 H4].
    rewrite (Hx _ _ H1 H3). simpl. eapply IHl; eassumption.
  - destruct b as [| | | | | db]; try discriminate Hab.
    destruct c as [| | | | | dc]; try discriminate Hbc.
    rewrite py_eq_dict in *.
    apply andb_true_iff in Hab as [L1 S1]. apply andb_true_iff in Hbc as [L2 S2].
    apply andb_true_iff. split.
    + apply Nat.eqb_eq in L1, L2. apply Nat.eqb_eq. congruence.
    + rewrite forallb_forall in *. intros kv Hin.
      specialize (S1 kv Hin). unfold entry_in in S1.
      apply existsb_exists in S1 as [e [He Hm]].
      apply andb_true_iff in Hm as [Hk Hv].
      specialize (S2 e He). unfold entry_in in S2.
      apply existsb_exists in S2 as [e' [He' Hm']].
      apply andb_true_iff in Hm' as [Hk' Hv'].
      unfold entry_in. apply existsb_exists. exists e'. split; [exact He'|].
      apply String.eqb_eq in Hk, Hk'. rewrite Hk, Hk', String.eqb_refl. simpl.
      rewrite Forall_forall in IH. eapply (IH kv Hin); eassumption.
Qed.

Lemma py_in_app x l1 l2 : py_in x (l1 ++ l2) = (py_in x l1 || py_in x l2)%bool.
Proof. unfold py_in. apply existsb_app. Qed.

Lemma py_in_In x l : In x l -> py_in x l = true.
Proof.
  intro H. unfold py_in. apply existsb_exists. exists x. split; [exact H|].
  apply py_eq_refl.
Qed.

Lemma py_in_trans x y l : py_in x l = true -> py_eq x y = true -> py_in y l = true.
Proof.
  unfold py_in. intros H Hxy. apply existsb_exists in H as [e [He Hex]].
  apply existsb_exists. exists e. split; [exact He|].
  eapply py_eq_trans; eassumption.
Qed.

(** The loop started with [out]: what it has kept so far stays in front. *)
Lemma dedup_loop_spec l : forall before out,
  (forall c, py_in c before = py_in c out) ->
  fold_left dedup_step l out = out ++ first_occurrences_from before l.
Proof.
  induction l as [|c l IH]; intros before out Hcov; simpl.
  - now rewrite app_nil_r.
  - unfold dedup_step at 2. rewrite (Hcov c).
    destruct (py_in c out) eqn:Hc; simpl.
    + apply IH. intro x. rewrite py_in_app, Hcov. simpl.
      destruct (py_eq c x) eqn:Hcx; [|now rewrite !orb_false_r].
      rewrite (py_in_trans c x out Hc Hcx). reflexivity.
    + rewrite (IH (before ++ [c]) (out ++ [c])).
      * now rewrite <- app_assoc.
      * intro x. rewrite !py_in_app, Hcov. reflexivity.
Qed.

Lemma dedup_loop_NoDup l : forall out,
  NoDup out -> NoDup (fold_left dedup_step l out).
Proof.
  induction l as [|c l IH]; intros out Hnd; simpl; [exact Hnd|].
  apply IH. unfold dedup_step.
  destruct (py_in c out) eqn:Hc; simpl; [exact Hnd|].
  apply NoDup_app; [exact Hnd | repeat constructor; intros [] | ].
  intros x Hx [Hx'|[]]. subst x.
  rewrite (py_in_In _ _ Hx) in Hc. discriminate.
Qed.

Lemma dedup_loop_keeps l : forall out x,
  py_in x out = true -> py_in x (fold_left dedup_step l out) = true.
Proof.
  induction l as [|c l IH]; intros out x Hx; simpl; [exact Hx|].
  apply IH. unfold dedup_step. destruct (py_in c out); simpl; [exact Hx|].
  rewrite py_in_app, Hx. reflexivity.
Qed.

Lemma dedup_loop_covers l : forall out,
  forallb (fun c => py_in c (fold_left dedup_step l out)) l = true.
Proof.
  induction l as [|c l IH]; intros out; simpl; [reflexivity|].
  rewrite IH, andb_true_r.
  apply dedup_loop_keeps. unfold dedup_step.
  destruct (py_in c out) eqn:Hc; simpl; [exact Hc|].
  rewrite py_in_app. simpl. rewrite py_eq_refl. now rewrite orb_true_r.
Qed.

(** C7.  [get_alternate_base_urls] returns no value twice; what it
    returns is the list of first occurrences of the collected candidates, in
    their order (settings base URL, URL-list entries, config values,
    field-descriptor values); and every candidate has its equal in the
    result, so a URL held by two sources comes out exactly once. *)
Theorem alternate_base_urls_deduplicated (indexer : dict) :
  let candidates := collect_candidates indexer in
  let out := get_alternate_base_urls indexer in
  NoDup out
  /\ out = first_occurrences candidates
  /\ forallb (fun c => py_in c out) candidates = true.
Proof.
  cbv zeta. unfold get_alternate_base_urls, dedup, first_occurrences.
  split; [| split].
  - apply dedup_loop_NoDup. constructor.
  - rewrite (dedup_loop_spec _ [] []); [reflexivity | reflexivity].
  - apply dedup_loop_covers.
Qed.

(** The scenario of the specification: the same URL under [settings] and
    in [indexerUrls]. *)
Example same_url_in_two_sources :
  get_alternate_base_urls
    [("id", VInt 5); ("status", VStr "error");
     ("settings", VDict [("baseUrl", VStr "http://old")]);
     ("indexerUrls", VList [VStr "http://old"; VStr "http://mirror"; VStr "http://old"])]
  = [VStr "http://old"; VStr "http://mirror"].
Proof. reflexivity. Qed.

(* ================================================================= *)
(** ** Facts about the mutators *)

Lemma dict_get_set_same k v d : dict_get k (dict_set k v d) = Some v.
Proof.
  induction d as [|[k' v'] d IH]; simpl.
  - now rewrite String.eqb_refl.
  - destruct (String.eqb k k') eqn:E; simpl; rewrite E; [reflexivity | exact IH].
Qed.

Lemma dict_get_set_other k k' v d :
  String.eqb k k' = false -> dict_get k (dict_set k' v d) = dict_get k d.
Proof.
  intro Hne. induction d as [|[k0 v0] d IH]; simpl.
  - now rewrite Hne.
  - destruct (String.eqb k' k0) eqn:E; simpl.
    + apply String.eqb_eq in E. subst k0. now rewrite Hne.
    + destruct (String.eqb k k0); [reflexivity | exact IH].
Qed.

Lemma dict_set_set k v v' d : dict_set k v (dict_set k v' d) = dict_set k v d.
Proof.
  induction d as [|[k0 v0] d IH]; simpl.
  - now rewrite String.eqb_refl.
  - destruct (String.eqb k k0) eqn:E; simpl; rewrite E; [reflexivity | now rewrite IH].
Qed.

Lemma dict_has_set_same k v d : dict_has k (dict_set k v d) = true.
Proof. unfold dict_has. now rewrite dict_get_set_same. Qed.

Lemma dict_has_set_other k k' v d :
  String.eqb k k' = false -> dict_has k (dict_set k' v d) = dict_has k d.
Proof. intro H. unfold dict_has. now rewrite dict_get_set_other. Qed.

Lemma set_first_present_stable ks url cd cd' :
  set_first_present ks url cd = Some cd' ->
  set_first_present ks url cd' = Some cd'.
Proof.
  induction ks as [|k ks IH]; simpl; [discriminate|].
  destruct (dict_has k cd) eqn:Hk.
  - intros [= <-]. rewrite dict_has_set_same. now rewrite dict_set_set.
  - intro H. pose proof H as H0. apply IH in H.
    assert (dict_has k cd' = false) as ->; [|exact H].
    clear IH H. revert H0. induction ks as [|k1 ks IHks]; simpl; [discriminate|].
    destruct (dict_has k1 cd) eqn:Hk1.
    + intros [= <-]. destruct (String.eqb k k1) eqn:E.
      * apply String.eqb_eq in E. subst. congruence.
      * now rewrite dict_has_set_other.
    + exact IHks.
Qed.

Lemma dict_set_noop k v d : dict_get k d = Some v -> dict_set k v d = d.
Proof.
  induction d as [|[k0 v0] d IH]; simpl; [discriminate|].
  destruct (String.eqb k k0) eqn:E.
  - now intros [= ->].
  - intro H. now rewrite IH.
Qed.

Ltac dict_simpl0 :=
  repeat first
    [ rewrite dict_get_set_same
    | rewrite dict_has_set_same
    | rewrite dict_set_set
    | rewrite dict_get_set_other by reflexivity
    | rewrite dict_has_set_other by reflexivity ].

Ltac dict_simpl :=
  repeat first
    [ progress dict_simpl0
    | match goal with
      | |- context [dict_set ?k ?v ?d] =>
          rewrite (dict_set_noop k v d) by (dict_simpl0; reflexivity)
      end ].

Lemma get_dict_set_same k x d : get_dict k (dict_set k (VDict x) d) = Some x.
Proof. unfold get_dict. now rewrite dict_get_set_same. Qed.

Lemma get_list_set_same k x d : get_list k (dict_set k (VList x) d) = Some x.
Proof. unfold get_list. now rewrite dict_get_set_same. Qed.

Lemma get_dict_set_other k k' v d :
  String.eqb k k' = false -> get_dict k (dict_set k' v d) = get_dict k d.
Proof. intro H. unfold get_dict. now rewrite dict_get_set_other. Qed.

Lemma get_list_set_other k k' v d :
  String.eqb k k' = false -> get_list k (dict_set k' v d) = get_list k d.
Proof. intro H. unfold get_list. now rewrite dict_get_set_other. Qed.

Lemma get_dict_get k d x : get_dict k d = Some x -> dict_get k d = Some (VDict x).
Proof. unfold get_dict. destruct (dict_get k d) as [[]|]; congruence. Qed.

Lemma get_list_get k d x : get_list k d = Some x -> dict_get k d = Some (VList x).
Proof. unfold get_list. destruct (dict_get k d) as [[]|]; congruence. Qed.

Ltac dict_simpl ::=
  repeat first
    [ progress dict_simpl0
    | rewrite get_dict_set_same
    | rewrite get_list_set_same
    | rewrite get_dict_set_other by reflexivity
    | rewrite get_list_set_other by reflexivity
    | match goal with
      | |- context [dict_set ?k ?v ?d] =>
          rewrite (dict_set_noop k v d) by (dict_simpl0; reflexivity)
      end ].

Lemma set_base_url_idempotent indexer url :
  set_base_url (set_base_url indexer url) url = set_base_url indexer url.
Proof.
  unfold set_base_url at 2 3.
  destruct (get_dict "settings" indexer) as [sd|] eqn:Hs.
  { destruct (dict_has "baseUrl" sd) eqn:H1; destruct (dict_has "BaseUrl" sd) eqn:H2;
      simpl; unfold set_base_url; dict_simpl; rewrite ?H1, ?H2; dict_simpl; simpl;
      rewrite ?H1, ?H2; dict_simpl; reflexivity. }
  destruct (get_dict "config" indexer) as [cd|] eqn:Hc.
  { destruct (set_first_present ["baseUrl"; "BaseUrl"; "url"; "Url"] url cd) as [cd'|] eqn:Hf;
      unfold set_base_url; dict_simpl; rewrite Hs; dict_simpl.
    - rewrite (set_first_present_stable _ _ _ _ Hf); dict_simpl; reflexivity.
    - simpl; dict_simpl; reflexivity. }
  destruct (dict_has "BaseUrl" indexer) eqn:Hb.
  { unfold set_base_url; dict_simpl; rewrite Hs, Hc; dict_simpl; reflexivity. }
  unfold set_url_lists; dict_simpl.
  destruct (get_list "indexerUrls" indexer) eqn:E1;
    [| destruct (get_list "legacyUrls" indexer) eqn:E2;
       [| destruct (get_list "fields" indexer) eqn:E3 ] ].
  all: unfold set_base_url; dict_simpl; rewrite ?Hs, ?Hc; dict_simpl; reflexivity.
Qed.

(** [add_tag_to_indexer] *)
Lemma py_in_snoc_int n ids : py_in (VInt n) (ids ++ [VInt n]) = true.
Proof.
  unfold py_in. rewrite existsb_app. simpl. rewrite Z.eqb_refl. now rewrite orb_true_r.
Qed.

Lemma has_tag_object_snoc n label tags :
  has_tag_object n (tags ++ [VDict [("id", VInt n); ("label", label)]]) = true.
Proof.
  unfold has_tag_object. rewrite existsb_app. simpl. rewrite Z.eqb_refl.
  now rewrite orb_true_r.
Qed.

(** After [add_tag_id], [tagIds] is a list that holds the id. *)
Lemma add_tag_id_holds n indexer :
  exists ids, get_list "tagIds" (add_tag_id n indexer) = Some ids
              /\ py_in (VInt n) ids = true.
Proof.
  unfold add_tag_id.
  destruct (get_list "tagIds" indexer) as [ids|] eqn:E.
  - destruct (py_in (VInt n) ids) eqn:Hin; simpl.
    + exists ids. now split.
    + exists (ids ++ [VInt n]). dict_simpl. split; [reflexivity | apply py_in_snoc_int].
  - exists [VInt n]. dict_simpl. split; [reflexivity|]. simpl. now rewrite Z.eqb_refl.
Qed.

Lemma add_tag_id_noop n indexer ids :
  get_list "tagIds" indexer = Some ids -> py_in (VInt n) ids = true ->
  add_tag_id n indexer = indexer.
Proof. intros E Hin. unfold add_tag_id. now rewrite E, Hin. Qed.

Lemma add_tag_object_holds n label indexer :
  exists tags, get_list "tags" (add_tag_object n label indexer) = Some tags
               /\ has_tag_object n tags = true.
Proof.
  unfold add_tag_object.
  destruct (get_list "tags" indexer) as [tags|] eqn:E.
  - destruct (has_tag_object n tags) eqn:Hin; simpl.
    + exists tags. now split.
    + eexists. dict_simpl. split; [reflexivity | apply has_tag_object_snoc].
  - eexists. dict_simpl. split; [reflexivity|]. simpl. now rewrite Z.eqb_refl.
Qed.

Lemma add_tag_object_noop n label indexer tags :
  get_list "tags" indexer = Some tags -> has_tag_object n tags = true ->
  add_tag_object n label indexer = indexer.
Proof. intros E Hin. unfold add_tag_object. now rewrite E, Hin. Qed.

Lemma add_tag_object_keeps_tagIds n label indexer :
  get_list "tagIds" (add_tag_object n label indexer) = get_list "tagIds" indexer.
Proof.
  unfold add_tag_object.
  destruct (get_list "tags" indexer) as [tags|];
    [destruct (negb (has_tag_object n tags))|]; dict_simpl; reflexivity.
Qed.

Lemma add_tag_idempotent indexer tag :
  add_tag_to_indexer (add_tag_to_indexer indexer tag) tag = add_tag_to_indexer indexer tag.
Proof.
  unfold add_tag_to_indexer.
  destruct (tag_id_int_of tag) as [n|]; [|reflexivity].
  destruct (add_tag_id_holds n indexer) as [ids [Hids Hin]].
  destruct (truthy (tag_label_of tag)).
  - destruct (add_tag_object_holds n (tag_label_of tag) (add_tag_id n indexer))
      as [tags [Htags Hobj]].
    rewrite (add_tag_id_noop n _ ids);
      [| now rewrite add_tag_object_keeps_tagIds | exact Hin].
    now rewrite (add_tag_object_noop n _ _ tags).
  - now rewrite (add_tag_id_noop n _ ids).
Qed.

(** C8.  Both mutators are idempotent: a second [set_base_url] with the
    same URL, and a second [add_tag_to_indexer] with the same tag, leave the
    record as the first call left it (so no id and no tag object is added
    twice). *)
Theorem mutators_idempotent (r : dict) (u t : value) :
  set_base_url (set_base_url r u) u = set_base_url r u
  /\ add_tag_to_indexer (add_tag_to_indexer r t) t = add_tag_to_indexer r t.
Proof. split; [apply set_base_url_idempotent | apply add_tag_idempotent]. Qed.

(** C10.  A tag whose id is absent, or is something [int] rejects, leaves
    the record exactly as it was: no [tagIds] or [tags] field is created and
    none is changed. *)
Theorem add_tag_without_integer_id_is_noop (indexer : dict) (tag : value) :
  tag_id_of tag = VNone \/ py_int (tag_id_of tag) = None ->
  add_tag_to_indexer indexer tag = indexer.
Proof.
  intro H. unfold add_tag_to_indexer, tag_id_int_of.
  destruct H as [-> | H]; [reflexivity|].
  destruct (tag_id_of tag); simpl in H |- *; try rewrite H; try reflexivity;
    discriminate H.
Qed.

(** Three such tags: a non-numeric id, a bare non-numeric value, no id. *)
Lemma add_tag_without_integer_id_witness :
  let indexer := [("id", VInt 5); ("tagIds", VList [VInt 1]); ("tags", VStr "x")] in
  add_tag_to_indexer indexer (VDict [("id", VStr "abc"); ("label", VStr "rot")]) = indexer
  /\ add_tag_to_indexer indexer (VStr "n/a") = indexer
  /\ add_tag_to_indexer indexer (VDict [("label", VStr "rot")]) = indexer.
Proof.
  cbv zeta. split; [|split].
  - apply add_tag_without_integer_id_is_noop. right. reflexivity.
  - apply add_tag_without_integer_id_is_noop. right. reflexivity.
  - apply add_tag_without_integer_id_is_noop. left. reflexivity.
Defined.

Example set_base_url_without_top_level_key : set_base_url [("indexerUrls", VList [VStr "http://old"; VStr "http://m"])] (VStr "http://new")
  = [("indexerUrls", VList [VStr "http://new"; VStr "http://m"]); ("BaseUrl", VStr "http://new")].
Proof. reflexivity. Qed.

(** C5, as stated, fails.  Without [settings], [config] and a top-level
    [BaseUrl], the call creates [BaseUrl] and goes on to rewrite the head of
    [indexerUrls]; and a settings object that holds both spellings of the
    key gets both rewritten.  Two locations change in each case. *)
Lemma set_base_url_rewrites_two_locations :
  ~ rewrites_exactly_one
      [("id", VInt 5); ("indexerUrls", VList [VStr "http://old"; VStr "http://mirror"])]
      (set_base_url
         [("id", VInt 5); ("indexerUrls", VList [VStr "http://old"; VStr "http://mirror"])]
         (VStr "http://mirror"))
  /\ ~ rewrites_exactly_one
      [("id", VInt 5);
       ("settings", VDict [("baseUrl", VStr "http://old"); ("BaseUrl", VStr "http://old")])]
      (set_base_url
         [("id", VInt 5);
          ("settings", VDict [("baseUrl", VStr "http://old"); ("BaseUrl", VStr "http://old")])]
         (VStr "http://mirror")).
Proof.
  split; intros [loc [_ Honly]].
  - assert (H1 : TopBaseUrl = loc) by (apply Honly; vm_compute; discriminate).
    assert (H2 : UrlListHead IndexerUrls = loc) by (apply Honly; vm_compute; discriminate).
    congruence.
  - assert (H1 : SettingsKey "baseUrl" = loc) by (apply Honly; vm_compute; discriminate).
    assert (H2 : SettingsKey "BaseUrl" = loc) by (apply Honly; vm_compute; discriminate).
    congruence.
Qed.

Lemma dict_get_set k k' v d :
  dict_get k (dict_set k' v d) = if String.eqb k k' then Some v else dict_get k d.
Proof.
  destruct (String.eqb k k') eqn:E.
  - apply String.eqb_eq in E. subst. apply dict_get_set_same.
  - now apply dict_get_set_other.
Qed.

Lemma not_in_cons_str (k k0 : string) l : ~ In k (k0 :: l) -> String.eqb k k0 = false /\ ~ In k l.
Proof.
  intro H. split.
  - apply String.eqb_neq. intro. subst. apply H. now left.
  - intro. apply H. now right.
Qed.

Lemma set_first_present_target ks url cd :
  match set_first_present ks url cd with
  | Some cd' => cd'
  | None => dict_set "baseUrl" url cd
  end = dict_set (first_present ks cd) url cd.
Proof.
  induction ks as [|k ks IH]; simpl; [reflexivity|].
  destruct (dict_has k cd); [reflexivity | exact IH].
Qed.

Lemma set_first_url_field_hit url fields : forall j,
  first_url_field fields = Some j ->
  field_value (set_first_url_field url fields) j = Some url
  /\ forall i, i <> j ->
       field_value (set_first_url_field url fields) i = field_value fields i.
Proof.
  induction fields as [|f rest IH]; intros j Hj; simpl in Hj; [discriminate|].
  destruct f as [| | | | |fd]; simpl in *;
    try (destruct (first_url_field rest) as [j'|]; [|discriminate];
         injection Hj as <-; destruct (IH j' eq_refl) as [H1 H2];
         split; [exact H1 | intros [|i] Hi; [reflexivity | apply H2; congruence]]).
  destruct (is_http_str (get "value" fd)) eqn:Hh.
  - injection Hj as <-. split.
    + unfold field_value. simpl. apply dict_get_set_same.
    + intros [|i] Hi; [congruence | reflexivity].
  - destruct (first_url_field rest) as [j'|]; [|discriminate].
    injection Hj as <-. destruct (IH j' eq_refl) as [H1 H2].
    split; [exact H1 | intros [|i] Hi; [reflexivity | apply H2; congruence]].
Qed.

Lemma set_first_url_field_miss url fields :
  first_url_field fields = None -> set_first_url_field url fields = fields.
Proof.
  induction fields as [|f rest IH]; simpl; [reflexivity|].
  destruct f as [| | | | |fd];
    try (destruct (first_url_field rest); [discriminate|]; intros _; now rewrite IH).
  destruct (is_http_str (get "value" fd)); [discriminate|].
  destruct (first_url_field rest); [discriminate|]. intros _. now rewrite IH.
Qed.

(** Reading any location through an assignment to an unrelated key. *)
Lemma read_set_other loc k v r :
  match loc with
  | SettingsKey _ => String.eqb "settings" k = false
  | ConfigKey _ => String.eqb "config" k = false
  | TopBaseUrl => String.eqb "BaseUrl" k = false
  | UrlListHead f => String.eqb (url_list_key f) k = false
  | FieldValue _ => String.eqb "fields" k = false
  end ->
  read loc (dict_set k v r) = read loc r.
Proof.
  destruct loc; simpl; intro H.
  - now rewrite get_dict_set_other.
  - now rewrite get_dict_set_other.
  - now rewrite dict_get_set_other.
  - now rewrite get_list_set_other.
  - now rewrite get_list_set_other.
Qed.

Ltac other_key :=
  first [ reflexivity
        | match goal with f : url_list |- _ => destruct f; reflexivity end ].

Lemma set_base_url_settings r url sd :
  get_dict "settings" r = Some sd ->
  forall loc,
    read loc (set_base_url r url)
    = match loc with
      | SettingsKey k =>
          if (String.eqb k "baseUrl"
              && (dict_has "baseUrl" sd || negb (dict_has "BaseUrl" sd)))%bool
          then Some url
          else if (String.eqb k "BaseUrl" && dict_has "BaseUrl" sd)%bool
          then Some url
          else dict_get k sd
      | _ => read loc r
      end.
Proof.
  intros Hs loc. unfold set_base_url. rewrite Hs.
  destruct loc as [k| | | |];
    try (destruct (dict_has "baseUrl" sd || dict_has "BaseUrl" sd)%bool;
         apply read_set_other; other_key).
  destruct (dict_has "baseUrl" sd) eqn:H1; destruct (dict_has "BaseUrl" sd) eqn:H2;
    simpl; dict_simpl; rewrite ?H2; simpl; dict_simpl; rewrite ?dict_get_set;
    destruct (String.eqb k "baseUrl") eqn:E1; destruct (String.eqb k "BaseUrl") eqn:E2;
    simpl; try reflexivity;
    apply String.eqb_eq in E1; apply String.eqb_eq in E2; subst; discriminate.
Qed.

Lemma set_base_url_config r url cd :
  get_dict "settings" r = None -> get_dict "config" r = Some cd ->
  forall loc,
    read loc (set_base_url r url)
    = match loc with
      | ConfigKey k =>
          if String.eqb k (first_present ["baseUrl"; "BaseUrl"; "url"; "Url"] cd)
          then Some url else dict_get k cd
      | _ => read loc r
      end.
Proof.
  intros Hs Hc loc. unfold set_base_url. rewrite Hs, Hc.
  pose proof (set_first_present_target ["baseUrl"; "BaseUrl"; "url"; "Url"] url cd) as T.
  destruct (set_first_present ["baseUrl"; "BaseUrl"; "url"; "Url"] url cd) as [cd'|];
    rewrite T; clear T;
    (destruct loc as [k|k| | |]; try (apply read_set_other; other_key);
     simpl; dict_simpl; apply dict_get_set).
Qed.

Lemma set_base_url_top_present r url :
  get_dict "settings" r = None -> get_dict "config" r = None ->
  dict_has "BaseUrl" r = true ->
  forall loc,
    read loc (set_base_url r url)
    = match loc with TopBaseUrl => Some url | _ => read loc r end.
Proof.
  intros Hs Hc Hb loc. unfold set_base_url. rewrite Hs, Hc, Hb.
  destruct loc; try (apply read_set_other; other_key).
  simpl. apply dict_get_set_same.
Qed.

Lemma set_base_url_top_absent r url :
  get_dict "settings" r = None -> get_dict "config" r = None ->
  dict_has "BaseUrl" r = false ->
  forall loc,
    read loc (set_base_url r url)
    = match loc with
      | TopBaseUrl => Some url
      | UrlListHead IndexerUrls =>
          match get_list "indexerUrls" r with
          | Some _ => Some url
          | None => None
          end
      | UrlListHead LegacyUrls =>
          match get_list "indexerUrls" r, get_list "legacyUrls" r with
          | None, Some _ => Some url
          | _, _ => read loc r
          end
      | FieldValue i =>
          match get_list "indexerUrls" r, get_list "legacyUrls" r,
                get_list "fields" r with
          | None, None, Some fields =>
              match first_url_field fields with
              | Some j => if Nat.eqb i j then Some url else read loc r
              | None => read loc r
              end
          | _, _, _ => read loc r
          end
      | _ => read loc r
      end.
Proof.
  intros Hs Hc Hb loc. unfold set_base_url. rewrite Hs, Hc, Hb.
  unfold set_url_lists. dict_simpl.
  destruct (get_list "indexerUrls" r) as [l1|] eqn:E1.
  { destruct loc as [k|k| |[]|i]; simpl; dict_simpl; rewrite ?E1; try reflexivity. }
  destruct (get_list "legacyUrls" r) as [l2|] eqn:E2.
  { destruct loc as [k|k| |[]|i]; simpl; dict_simpl; rewrite ?E1, ?E2; try reflexivity. }
  destruct (get_list "fields" r) as [fields|] eqn:E3.
  2: { destruct loc as [k|k| |[]|i]; simpl; dict_simpl; rewrite ?E1, ?E2, ?E3; reflexivity. }
  destruct loc as [k|k| |[]|i]; simpl; dict_simpl; rewrite ?E1, ?E2, ?E3; try reflexivity.
  fold (field_value (set_first_url_field url fields) i). fold (field_value fields i).
  destruct (first_url_field fields) as [j|] eqn:Ej.
  - destruct (set_first_url_field_hit url fields j Ej) as [H1 H2].
    destruct (Nat.eqb i j) eqn:Eij.
    + apply Nat.eqb_eq in Eij. now subst.
    + apply Nat.eqb_neq in Eij. now apply H2.
  - now rewrite set_first_url_field_miss.
Qed.

(** C5, amended.  One call writes the URL to every location of
    [targets]: under a settings object, each of [baseUrl] and [BaseUrl] that
    is present ([baseUrl] is created when neither is); else under a config
    object, the first present of [baseUrl], [BaseUrl], [url], [Url]
    ([baseUrl] is created when none is); else the top-level [BaseUrl], and
    when that key had to be created also the head of [indexerUrls], else of
    [legacyUrls], else the value of the first HTTP-looking field descriptor.
    Every other location, and every other key of the record, keeps its
    value. *)
Theorem set_base_url_writes_its_targets (r : dict) (url : value) :
  Forall (fun loc => read loc (set_base_url r url) = Some url) (targets r)
  /\ (forall loc, ~ In loc (targets r) ->
        read loc (set_base_url r url) = read loc r)
  /\ (forall k, ~ In k url_keys ->
        dict_get k (set_base_url r url) = dict_get k r).
Proof.
  split; [| split].
  - unfold targets.
    destruct (get_dict "settings" r) as [sd|] eqn:Hs.
    { pose proof (set_base_url_settings r url sd Hs) as R.
      destruct (dict_has "baseUrl" sd) eqn:H1; destruct (dict_has "BaseUrl" sd) eqn:H2;
        simpl; repeat constructor; rewrite R, ?H1, ?H2; reflexivity. }
    destruct (get_dict "config" r) as [cd|] eqn:Hc.
    { repeat constructor. rewrite (set_base_url_config r url cd Hs Hc).
      now rewrite String.eqb_refl. }
    destruct (dict_has "BaseUrl" r) eqn:Hb.
    { repeat constructor. now rewrite (set_base_url_top_present r url Hs Hc Hb). }
    assert (R := set_base_url_top_absent r url Hs Hc Hb).
    constructor; [now rewrite R|].
    destruct (get_list "indexerUrls" r) eqn:E1;
      [constructor; [now rewrite R | constructor]|].
    destruct (get_list "legacyUrls" r) eqn:E2;
      [constructor; [now rewrite R | constructor]|].
    destruct (get_list "fields" r) as [fields|] eqn:E3; [|constructor].
    destruct (first_url_field fields) as [j|] eqn:Ej; [|constructor].
    constructor; [|constructor]. rewrite R. now rewrite Nat.eqb_refl.
  - intros loc Hloc. unfold targets in Hloc.
    destruct (get_dict "settings" r) as [sd|] eqn:Hs.
    { rewrite (set_base_url_settings r url sd Hs).
      destruct loc as [k| | | |]; try reflexivity. simpl. rewrite Hs.
      destruct (String.eqb k "baseUrl") eqn:E1;
        [apply String.eqb_eq in E1; subst k|];
        [|destruct (String.eqb k "BaseUrl") eqn:E2;
          [apply String.eqb_eq in E2; subst k|reflexivity]];
        destruct (dict_has "baseUrl" sd) eqn:H1; destruct (dict_has "BaseUrl" sd) eqn:H2;
        simpl in *; try reflexivity; exfalso; apply Hloc; auto. }
    destruct (get_dict "config" r) as [cd|] eqn:Hc.
    { rewrite (set_base_url_config r url cd Hs Hc).
      destruct loc as [k|k| | |]; try reflexivity. simpl. rewrite Hc.
      destruct (String.eqb k _) eqn:E; [|reflexivity].
      apply String.eqb_eq in E. subst k. exfalso. apply Hloc. now left. }
    destruct (dict_has "BaseUrl" r) eqn:Hb.
    { rewrite (set_base_url_top_present r url Hs Hc Hb).
      destruct loc; try reflexivity. exfalso. apply Hloc. now left. }
    rewrite (set_base_url_top_absent r url Hs Hc Hb).
    destruct loc as [k|k| |[]|i]; try reflexivity.
    + exfalso. apply Hloc. now left.
    + destruct (get_list "indexerUrls" r) eqn:E1; [|simpl; now rewrite E1].
      exfalso. apply Hloc. right. now left.
    + destruct (get_list "indexerUrls" r) eqn:E1; [reflexivity|].
      destruct (get_list "legacyUrls" r) eqn:E2; [|reflexivity].
      exfalso. apply Hloc. right. now left.
    + destruct (get_list "indexerUrls" r) eqn:E1; [reflexivity|].
      destruct (get_list "legacyUrls" r) eqn:E2; [reflexivity|].
      destruct (get_list "fields" r) as [fields|] eqn:E3; [|reflexivity].
      destruct (first_url_field fields) as [j|] eqn:Ej; [|reflexivity].
      destruct (Nat.eqb i j) eqn:Eij; [|reflexivity].
      apply Nat.eqb_eq in Eij. subst. exfalso. apply Hloc. right. now left.
  - intros k Hk. unfold url_keys in Hk.
    repeat match type of Hk with
    | ~ In _ (_ :: _) => apply not_in_cons_str in Hk; destruct Hk as [? Hk]
    end.
    unfold set_base_url, set_url_lists.
    repeat match goal with
    | |- context [match ?x with _ => _ end] => destruct x
    end; dict_simpl; rewrite ?dict_get_set_other by assumption; reflexivity.
Qed.

(* ================================================================= *)
(** ** Facts about the engine *)

Lemma clock_reads_app a b : clock_reads (a ++ b) = clock_reads a ++ clock_reads b.
Proof.
  induction a as [|[] a IH]; simpl; try exact IH; [reflexivity | now rewrite IH].
Qed.

Section Quiet.
Context {W : Type}.
Implicit Types s : state W.

Lemma quiet_refl s : quiet s s.
Proof.
  repeat split. exists []. now rewrite app_nil_r.
Qed.

Lemma quiet_trans s1 s2 s3 : quiet s1 s2 -> quiet s2 s3 -> quiet s1 s3.
Proof.
  intros (A1 & B1 & e1 & T1 & C1) (A2 & B2 & e2 & T2 & C2).
  repeat split; try congruence.
  exists (e1 ++ e2). rewrite T2, T1, <- app_assoc, clock_reads_app, C1, C2. now split.
Qed.

Lemma quiet_with_world s (w : W) evs :
  clock_reads evs = [] -> quiet s (with_world w evs s).
Proof. intro H. repeat split. now exists evs. Qed.

Lemma quiet_with_res s r : quiet s (with_res r s).
Proof. repeat split. exists []. simpl. now rewrite app_nil_r. Qed.

(** Inversion of the monad's combinators *)
Lemma bind_inv {A B} (m : M W A) (k : A -> M W B) s r s' :
  bind m k s = (r, s') ->
  (exists a s1, m s = (Ret a, s1) /\ k a s1 = (r, s'))
  \/ (exists e, m s = (Raise e, s') /\ r = Raise e).
Proof.
  unfold bind. destruct (m s) as [[a|e] s1].
  - intro H. left. now exists a, s1.
  - intros [= <- <-]. right. now exists e.
Qed.

Lemma try_inv {A} (m : M W A) (h : exn -> M W A) s r s' :
  try_ m h s = (r, s') ->
  (exists a, m s = (Ret a, s') /\ r = Ret a)
  \/ (exists e s1, m s = (Raise e, s1) /\ h e s1 = (r, s')).
Proof.
  unfold try_. destruct (m s) as [[a|e] s1].
  - intros [= <- <-]. left. now exists a.
  - intro H. right. now exists e, s1.
Qed.

Lemma ret_inv {A} (a : A) s r s' : ret a s = (r, s') -> r = Ret a /\ s' = s.
Proof. unfold ret. now intros [= <- <-]. Qed.

Lemma raise_inv {A} e s (r : outcome A) s' :
  raise e s = (r, s') -> r = Raise e /\ s' = s.
Proof. unfold raise. now intros [= <- <-]. Qed.

End Quiet.

(** Break a run of monadic code into the runs of its parts. *)
Ltac minv H :=
  lazymatch type of H with
  | bind _ _ _ = _ =>
      let a := fresh "a" in let s1 := fresh "s" in let e := fresh "e" in
      let H1 := fresh "H" in let H2 := fresh "H" in
      apply bind_inv in H as [(a & s1 & H1 & H2) | (e & H1 & H2)]
  | try_ _ _ _ = _ =>
      let a := fresh "a" in let s1 := fresh "s" in let e := fresh "e" in
      let H1 := fresh "H" in let H2 := fresh "H" in
      apply try_inv in H as [(a & H1 & H2) | (e & s1 & H1 & H2)]
  | ret _ _ = _ =>
      let H1 := fresh "H" in let H2 := fresh "H" in
      apply ret_inv in H as [H1 H2]
  | raise _ _ = _ =>
      let H1 := fresh "H" in let H2 := fresh "H" in
      apply raise_inv in H as [H1 H2]
  end.

Section Calls.
Context {W : Type} (cl : client W) (cfg : config).
Implicit Types s : state W.

Lemma call_test_quiet p s r s' : call_test cl p s = (r, s') -> quiet s s'.
Proof.
  unfold call_test. destruct (test_indexer cl p (world s)).
  intros [= <- <-]. now apply quiet_with_world.
Qed.

Lemma call_update_quiet i p s r s' : call_update cl i p s = (r, s') -> quiet s s'.
Proof.
  unfold call_update. destruct (update_indexer cl i p (world s)).
  intros [= <- <-]. now apply quiet_with_world.
Qed.

Lemma call_get_quiet i s r s' : call_get cl i s = (r, s') -> quiet s s'.
Proof.
  unfold call_get. destruct (get_indexer cl i (world s)).
  intros [= <- <-]. now apply quiet_with_world.
Qed.

Lemma call_find_or_create_tag_quiet l s r s' :
  call_find_or_create_tag cl l s = (r, s') -> quiet s s'.
Proof.
  unfold call_find_or_create_tag. destruct (find_or_create_tag cl l (world s)).
  intros [= <- <-]. now apply quiet_with_world.
Qed.

Lemma py_sleep_quiet n s r s' : py_sleep cl n s = (r, s') -> quiet s s'.
Proof.
  unfold py_sleep. destruct (n <? 0)%Z; intros [= <- <-];
    [apply quiet_refl | now apply quiet_with_world].
Qed.

Lemma append_fixed_quiet e s r s' : @append_fixed W e s = (r, s') -> quiet s s'.
Proof. unfold append_fixed. intros [= <- <-]. apply quiet_with_res. Qed.

Lemma append_skipped_quiet e s r s' : @append_skipped W e s = (r, s') -> quiet s s'.
Proof. unfold append_skipped. intros [= <- <-]. apply quiet_with_res. Qed.

Lemma append_failed_quiet e s r s' : @append_failed W e s = (r, s') -> quiet s s'.
Proof. unfold append_failed. intros [= <- <-]. apply quiet_with_res. Qed.

End Calls.

Lemma clear_failure_state_no_raise {W} k (s : state W) e s' :
  clear_failure_state k s = (Raise e, s') -> False.
Proof.
  unfold clear_failure_state, bind, get_indexer_state, set_indexer_state,
    _save_indexer_state, ret.
  destruct (dict_has k (indexer_state s)); discriminate.
Qed.

Create HintDb quiet.
#[export] Hint Resolve call_test_quiet call_update_quiet call_get_quiet
  call_find_or_create_tag_quiet py_sleep_quiet append_fixed_quiet
  append_skipped_quiet append_failed_quiet : quiet.

(** Split every run in the context into the runs of its parts. *)
Ltac msplit :=
  repeat match goal with
  | H : clear_failure_state _ _ = (Raise _, _) |- _ =>
      exfalso; exact (clear_failure_state_no_raise _ _ _ _ H)
  | H : bind _ _ _ = _ |- _ => minv H
  | H : try_ _ _ _ = _ |- _ => minv H
  | H : lift _ _ = _ |- _ => unfold lift in H; injection H as ? ?
  | H : get_indexer_state _ = _ |- _ =>
      unfold get_indexer_state in H; injection H as ? ?
  | H : ret _ _ = _ |- _ => minv H
  | H : raise _ _ = _ |- _ => minv H
  | H : when ?b _ _ = _ |- _ => unfold when in H; destruct b eqn:?
  | H : (if ?b then _ else _) _ = (_, _) |- _ => destruct b eqn:?
  | H : (match ?x with _ => _ end) _ = (_, _) |- _ => destruct x eqn:?
  | H : (let (_, _) := ?x in _) _ = (_, _) |- _ => destruct x eqn:?
  | H : (if ?b then _ else _) = (_, _) |- _ => destruct b eqn:?
  | H : (match ?x with _ => _ end) = (_, _) |- _ => destruct x eqn:?
  end.

Ltac mclean :=
  subst;
  repeat match goal with
  | H : Ret _ = Ret _ |- _ => injection H as H; subst
  | H : Raise _ = Raise _ |- _ => injection H as H; subst
  | H : Ret _ = Raise _ |- _ => discriminate H
  | H : Raise _ = Ret _ |- _ => discriminate H
  | H : (_, _) = (_, _) |- _ => injection H as ? ?; subst
  | H : inl _ = inr _ |- _ => discriminate H
  | H : inr _ = inl _ |- _ => discriminate H
  | H : inr _ = inr _ |- _ => injection H as H; subst
  | H : inl _ = inl _ |- _ => injection H as H; subst
  | H : _ = _ |- _ => discriminate H
  end.

(** Turn the runs of the parts into [quiet] facts and chain them. *)
Ltac to_quiet :=
  repeat match goal with
  | H : _ ?s1 = (_, ?s2) |- _ =>
      lazymatch type of s1 with state _ => idtac end;
      let Q := fresh "Q" in
      assert (Q : quiet s1 s2) by (eauto with quiet);
      clear H
  end.

Ltac chain_quiet :=
  repeat first
    [ eassumption
    | apply quiet_refl
    | eapply quiet_trans; [eassumption|] ].

Ltac solve_quiet := msplit; mclean; to_quiet; chain_quiet.

Section Trials.
Context {W : Type} (cl : client W) (cfg : config).
Implicit Types s : state W.

Lemma ui_followup_quiet t s r s' : ui_followup cl t s = (r, s') -> quiet s s'.
Proof. unfold ui_followup. intro H. solve_quiet. Qed.
#[local] Hint Resolve ui_followup_quiet : quiet.

Lemma retry_loop_quiet n : forall a t s r s',
  retry_loop cl cfg n a t s = (r, s') -> quiet s s'.
Proof.
  induction n as [|n IH]; simpl; intros a t s r s' H; solve_quiet.
Qed.

Lemma perform_test_with_retries_quiet t s r s' :
  _perform_test_with_retries cl cfg t s = (r, s') -> quiet s s'.
Proof. apply retry_loop_quiet. Qed.
#[local] Hint Resolve perform_test_with_retries_quiet : quiet.

Lemma tag_test_loop_quiet n : forall a t s r s',
  tag_test_loop cl cfg n a t s = (r, s') -> quiet s s'.
Proof.
  induction n as [|n IH]; simpl; intros a t s r s' H; solve_quiet.
Qed.
#[local] Hint Resolve tag_test_loop_quiet : quiet.

Lemma save_unless_dry_run_quiet i p s r s' :
  save_unless_dry_run cl cfg i p s = (r, s') -> quiet s s'.
Proof. unfold save_unless_dry_run. intro H. solve_quiet. Qed.
#[local] Hint Resolve save_unless_dry_run_quiet : quiet.

Lemma as_is_trial_quiet idx s r s' :
  as_is_trial cl cfg idx s = (r, s') -> quiet s s'.
Proof. unfold as_is_trial. intro H. solve_quiet. Qed.
#[local] Hint Resolve as_is_trial_quiet : quiet.




(** *** The tag pass *)

Lemma ensure_tag_obj_spec l s r s' :
  ensure_tag_obj cl cfg l s = (r, s') ->
  quiet s s'
  /\ exists l', r = Ret l' /\ idx l' = idx l /\ list_record l' = list_record l
                /\ aliased l' = aliased l /\ updated l' = updated l.
Proof.
  unfold ensure_tag_obj. intro H.
  split; [solve_quiet|].
  msplit; mclean; eexists; (split; [reflexivity|]); auto.
Qed.

Lemma persist_before_test_spec i f l t s r s' :
  persist_before_test cl cfg i f l t s = (r, s') ->
  quiet s s'
  /\ exists l' t', r = Ret (l', t') /\ updated l' = updated l
       /\ (save_before_test cfg = false -> list_record l' = list_record l).
Proof.
  unfold persist_before_test. intro H.
  split; [solve_quiet|].
  destruct (save_before_test cfg) eqn:Hm;
    msplit; mclean; do 2 eexists; (split; [reflexivity|]);
    (split; [reflexivity | auto; discriminate]).
Qed.

Lemma revert_after_exception_spec i l s r s' :
  revert_after_exception cl cfg i l s = (r, s') ->
  quiet s s'
  /\ exists l', r = Ret l' /\ updated l' = updated l
       /\ list_record l' = list_record l.
Proof.
  unfold revert_after_exception. intro H.
  split; [solve_quiet|].
  msplit; mclean; eexists; (split; [reflexivity|]); auto.
Qed.

End Trials.

#[export] Hint Resolve ui_followup_quiet perform_test_with_retries_quiet
  tag_test_loop_quiet save_unless_dry_run_quiet as_is_trial_quiet : quiet.

Ltac use_specs :=
  repeat match goal with
  | H : ensure_tag_obj _ _ _ _ = _ |- _ =>
      apply ensure_tag_obj_spec in H as (? & ? & ? & ? & ? & ? & ?)
  | H : persist_before_test _ _ _ _ _ _ _ = _ |- _ =>
      apply persist_before_test_spec in H as (? & ? & ? & ? & ? & ?)
  | H : revert_after_exception _ _ _ _ _ = _ |- _ =>
      apply revert_after_exception_spec in H as (? & ? & ? & ? & ?)
  end.

Section TagPass.
Context {W : Type} (cl : client W) (cfg : config).
Implicit Types s : state W.


Lemma tag_candidate_loop_spec i urls : forall l s r s',
  tag_candidate_loop cl cfg i l urls s = (r, s') ->
  quiet s s'
  /\ exists l', r = Ret l'
       /\ (updated l' = false -> updated l = false)
       /\ (save_before_test cfg = false -> list_record l' = list_record l).
Proof.
  induction urls as [|c urls IH]; simpl; intros l s r s' H.
  - msplit; mclean. split; [apply quiet_refl|]. eexists. split; [reflexivity|]. auto.
  - msplit; use_specs; mclean; simpl in *;
      try match goal with
      | Hl : tag_candidate_loop _ _ _ _ _ _ = _ |- _ =>
          apply IH in Hl as (? & ? & ? & ? & ?)
      end; mclean;
      (split; [to_quiet; chain_quiet|]);
      eexists; (split; [reflexivity|]);
      (split; [ try discriminate; try congruence; intuition congruence
              | intro Hm; repeat match goal with
                  | Hx : save_before_test cfg = false -> _ |- _ => specialize (Hx Hm)
                  end; simpl in *; congruence ]).
Qed.


(** *** Up to the bookkeeping *)




(** *** The bookkeeping *)




(** *** Reaching the last line of the loop body *)




Lemma quiet_fields s1 s2 :
  quiet s1 s2 ->
  indexer_state s2 = indexer_state s1 /\ state_file s2 = state_file s1.
Proof. intros (A & B & _). now split. Qed.



End TagPass.

Section RetryFacts.
Local Open Scope Z_scope.
Context {W : Type} (cl : client W) (cfg : config).

Lemma py_sleep_ret n (s : state W) r s' :
  0 <= n -> py_sleep cl n s = (r, s') -> r = Ret tt.
Proof.
  unfold py_sleep. intros Hn.
  replace (n <? 0) with false by (symmetry; apply Z.ltb_ge; lia).
  now intros [= <- _].
Qed.

Lemma judge_no_raise t res (s : state W) e s' :
  judge cl cfg t res s = (Raise e, s') -> False.
Proof.
  unfold judge, after_not_ok, ui_followup. intro H. msplit; mclean.
Qed.

(** What the handler of the loop does with an error of the test call:
    it waits and goes round again, or the run ends here. *)
Lemma retry_handler {A} (on_answer : value -> M W A) t
    (again : M W A) a (s : state W) e s1 r s' :
  0 <= TEST_RETRY_DELAY_SEC cfg -> 0 <= a ->
  call_test cl t s = (Raise e, s1) ->
  (if ((a <? TEST_RETRIES cfg) && is_transient e)%bool
   then bind (py_sleep cl (TEST_RETRY_DELAY_SEC cfg * (a + 1))) (fun _ => again)
   else raise e) s1 = (r, s') ->
  (a < TEST_RETRIES cfg /\ is_transient e = true
   /\ exists s2, py_sleep cl (TEST_RETRY_DELAY_SEC cfg * (a + 1)) s1 = (Ret tt, s2)
                 /\ again s2 = (r, s'))
  \/ retry_run cl cfg on_answer t 0 a s r s'.
Proof.
  intros Hd Ha Hc Hh.
  destruct (is_transient e) eqn:Ht.
  - destruct (a <? TEST_RETRIES cfg) eqn:Hlt; simpl in Hh.
    + apply Z.ltb_lt in Hlt.
      apply bind_inv in Hh as [([] & s2 & Hs & Hh) | (e' & Hs & _)].
      2: { apply py_sleep_ret in Hs; [discriminate | nia]. }
      left. repeat split; try assumption. now exists s2.
    + apply Z.ltb_ge in Hlt. apply raise_inv in Hh as [-> ->].
      right. now eapply run_exhausted.
  - rewrite andb_false_r in Hh. apply raise_inv in Hh as [-> ->].
    right. now eapply run_abort.
Qed.

Lemma retry_loop_follows_policy t n : forall a s r s',
  0 <= TEST_RETRY_DELAY_SEC cfg ->
  0 <= a ->
  a + Z.of_nat n = TEST_RETRIES cfg + 1 ->
  (0 < n)%nat ->
  retry_loop cl cfg n a t s = (r, s') ->
  exists k, retry_run cl cfg (judge cl cfg t) t k a s r s'
            /\ a + Z.of_nat k <= TEST_RETRIES cfg.
Proof.
  induction n as [|n IH]; intros a s r s' Hd Ha Hn Hpos H; [lia|].
  simpl in H. apply try_inv in H as [(b & H & ->) | (e & s1 & H & Hh)].
  - apply bind_inv in H as [(res & s1 & Hc & H) | (e & _ & [=])].
    exists 0%nat. split; [|lia]. eapply run_answer; [eassumption|].
    unfold judge, after_not_ok. exact H.
  - apply bind_inv in H as [(res & s2 & Hc & H) | (e' & Hc & [= <-])].
    { exfalso. exact (judge_no_raise _ _ _ _ _ H). }
    eapply (retry_handler (judge cl cfg t)) in Hh as [(Hlt & Ht & s2 & Hs & Hh) | Hr];
      try eassumption.
    + destruct n as [|n']; [lia|].
      destruct (IH (a + 1) s2 r s' Hd ltac:(lia) ltac:(lia) ltac:(lia) Hh)
        as (k & Hk & Hle).
      exists (S k). split; [|lia]. eapply run_retry; eassumption.
    + exists 0%nat. split; [assumption | lia].
Qed.

Lemma tag_test_loop_follows_policy t n : forall a s r s',
  0 <= TEST_RETRY_DELAY_SEC cfg ->
  0 <= a ->
  a + Z.of_nat n = TEST_RETRIES cfg + 1 ->
  (0 < n)%nat ->
  tag_test_loop cl cfg n a t s = (r, s') ->
  exists k, retry_run cl cfg ret t k a s r s'
            /\ a + Z.of_nat k <= TEST_RETRIES cfg.
Proof.
  induction n as [|n IH]; intros a s r s' Hd Ha Hn Hpos H; [lia|].
  simpl in H. apply try_inv in H as [(res & Hc & ->) | (e & s1 & Hc & Hh)].
  - exists 0%nat. split; [|lia]. eapply run_answer; [eassumption | reflexivity].
  - eapply (retry_handler (@ret W value)) in Hh as [(Hlt & Ht & s2 & Hs & Hh) | Hr];
      try eassumption.
    + destruct n as [|n']; [lia|].
      destruct (IH (a + 1) s2 r s' Hd ltac:(lia) ltac:(lia) ltac:(lia) Hh)
        as (k & Hk & Hle).
      exists (S k). split; [|lia]. eapply run_retry; eassumption.
    + exists 0%nat. split; [assumption | lia].
Qed.

Lemma sleeps_app a b : sleeps (a ++ b) = sleeps a ++ sleeps b.
Proof.
  induction a as [|[] a IH]; simpl; try exact IH; [reflexivity | now rewrite IH].
Qed.

Lemma call_test_trace t (s : state W) r s' :
  call_test cl t s = (r, s') -> trace s' = trace s ++ [EvTest t].
Proof.
  unfold call_test. destruct (test_indexer cl t (world s)). now intros [= _ <-].
Qed.

Lemma judge_trace t res (s : state W) r s' :
  judge cl cfg t res s = (r, s') ->
  exists evs, trace s' = trace s ++ evs /\ sleeps evs = [].
Proof.
  unfold judge, after_not_ok, ui_followup. intro H.
  msplit; mclean;
    try match goal with
    | Hc : call_test _ _ _ = _ |- _ => apply call_test_trace in Hc
    end;
    first [ eexists; split; [eassumption | reflexivity]
          | exists []; now rewrite app_nil_r ].
Qed.

Lemma ret_trace (res : value) (s : state W) r s' :
  ret res s = (r, s') ->
  exists evs, trace s' = trace s ++ evs /\ sleeps evs = [].
Proof. intros [= _ <-]. exists []. now rewrite app_nil_r. Qed.

Lemma retry_run_waits {A} (on_answer : value -> M W A) t k a (s : state W) r s' :
  (forall res s r s', on_answer res s = (r, s') ->
     exists evs, trace s' = trace s ++ evs /\ sleeps evs = []) ->
  retry_run cl cfg on_answer t k a s r s' ->
  exists evs,
    trace s' = trace s ++ evs
    /\ sleeps evs = backoff (TEST_RETRY_DELAY_SEC cfg) a k.
Proof.
  intro Hans.
  induction 1 as [a s res s1 r s2 Hc Hu
                 | a s e s1 Hc Ht
                 | a s e s1 Hc Ht Ha
                 | k a s e s1 s2 r s3 Hc Ht Ha Hs Hr IH];
    apply call_test_trace in Hc.
  - apply Hans in Hu as (evs & T & S0).
    exists (EvTest t :: evs). rewrite T, Hc, <- app_assoc. now split.
  - now exists [EvTest t].
  - now exists [EvTest t].
  - destruct IH as (evs & T & S0).
    unfold py_sleep in Hs.
    destruct (TEST_RETRY_DELAY_SEC cfg * (a + 1) <? 0); [discriminate|].
    injection Hs as <-. simpl in T.
    exists (EvTest t :: EvSleep (TEST_RETRY_DELAY_SEC cfg * (a + 1)) :: evs).
    rewrite T, Hc, <- !app_assoc. split; [reflexivity|].
    simpl. now rewrite S0.
Qed.

(** C9.  With a non-negative retry count and delay, every test wrapped in
    retries follows the retry policy, be it a call of
    [_perform_test_with_retries] or the loop written out for the
    candidate-with-tag test: a test that raises a transient error (429,
    toomanyrequests, timeout) is submitted again after a wait of the delay
    times the attempt number, at most [TEST_RETRIES] times; any other error
    ends the test at once and reaches the caller.  The waits recorded are
    the delay times 1, 2, ..., k. *)
Theorem test_retries_follow_policy t (s : state W) :
  0 <= TEST_RETRIES cfg ->
  0 <= TEST_RETRY_DELAY_SEC cfg ->
  (forall r s',
     _perform_test_with_retries cl cfg t s = (r, s') ->
     exists k evs,
       retry_run cl cfg (judge cl cfg t) t k 0 s r s'
       /\ Z.of_nat k <= TEST_RETRIES cfg
       /\ trace s' = trace s ++ evs
       /\ sleeps evs = backoff (TEST_RETRY_DELAY_SEC cfg) 0 k)
  /\ (forall r s',
        tag_test_loop cl cfg (Z.to_nat (TEST_RETRIES cfg + 1)) 0 t s = (r, s') ->
        exists k evs,
          retry_run cl cfg ret t k 0 s r s'
          /\ Z.of_nat k <= TEST_RETRIES cfg
          /\ trace s' = trace s ++ evs
          /\ sleeps evs = backoff (TEST_RETRY_DELAY_SEC cfg) 0 k).
Proof.
  intros Hr Hd. split; intros r s' H.
  - unfold _perform_test_with_retries in H.
    apply retry_loop_follows_policy in H as (k & Hk & Hle); try lia.
    destruct (retry_run_waits _ _ _ _ _ _ _ (judge_trace t) Hk) as (evs & T & S0).
    exists k, evs. repeat split; assumption.
  - apply tag_test_loop_follows_policy in H as (k & Hk & Hle); try lia.
    destruct (retry_run_waits _ _ _ _ _ _ _ ret_trace Hk) as (evs & T & S0).
    exists k, evs. repeat split; assumption.
Qed.

End RetryFacts.

Lemma dict_get_pop_other k key d :
  String.eqb k key = false -> dict_get k (dict_pop key d) = dict_get k d.
Proof.
  intro Hne. induction d as [|[k0 v0] d IH]; simpl; [reflexivity|].
  destruct (String.eqb key k0) eqn:E.
  - apply String.eqb_eq in E. subst k0. now rewrite Hne.
  - simpl. now rewrite IH.
Qed.

Section Kept.
Context {W : Type} (cl : client W) (cfg : config).
Implicit Types s : state W.

Lemma kept_refl key s : kept key s s.
Proof. split; auto. Qed.

Lemma kept_trans key s1 s2 s3 : kept key s1 s2 -> kept key s2 s3 -> kept key s1 s3.
Proof.
  intros [A1 B1] [A2 B2]. split.
  - intros k Hk. now rewrite A2, A1.
  - auto.
Qed.

Lemma quiet_kept key s s' : quiet s s' -> kept key s s'.
Proof.
  intros (A & B & _). split.
  - intros k _. now rewrite A.
  - rewrite A, B. auto.
Qed.

Lemma clear_failure_state_kept key s r s' :
  clear_failure_state key s = (r, s') -> kept key s s'.
Proof.
  unfold clear_failure_state, bind, get_indexer_state, set_indexer_state,
    _save_indexer_state, ret.
  destruct (dict_has key (indexer_state s)); intros [= _ <-].
  - split; [|reflexivity]. intros k Hk. simpl. now apply dict_get_pop_other.
  - apply kept_refl.
Qed.

Lemma record_failure_kept key now s r s' :
  record_failure cfg key now s = (r, s') -> kept key s s'.
Proof.
  unfold record_failure, set_indexer_state, _save_indexer_state. intro H.
  msplit; mclean; try apply kept_refl.
  split; [|reflexivity]. intros k Hk. simpl. now apply dict_get_set_other.
Qed.

End Kept.

Create HintDb kept.
#[export] Hint Resolve clear_failure_state_kept record_failure_kept : kept.

Ltac to_kept key :=
  repeat match goal with
  | H : _ ?s1 = (_, ?s2) |- _ =>
      lazymatch type of s1 with state _ => idtac end;
      let Q := fresh "K" in
      assert (Q : kept key s1 s2)
        by (first [ apply quiet_kept; solve [eauto with quiet]
                  | solve [eauto with kept] ]);
      clear H
  end.

Ltac chain_kept :=
  repeat first
    [ eassumption
    | apply kept_refl
    | eapply kept_trans; [eassumption|] ].

Ltac solve_kept key := msplit; mclean; to_kept key; chain_kept.

Section KeptTrials.
Context {W : Type} (cl : client W) (cfg : config).
Implicit Types s : state W.

Lemma candidate_trial_kept i key idx t c s r s' :
  candidate_trial cl cfg i key idx t c s = (r, s') -> kept key s s'.
Proof. unfold candidate_trial. intro H. solve_kept key. Qed.
#[local] Hint Resolve candidate_trial_kept : kept.

Lemma candidate_tag_trial_kept i key idx c s r s' :
  candidate_tag_trial cl cfg i key idx c s = (r, s') -> kept key s s'.
Proof. unfold candidate_tag_trial. intro H. solve_kept key. Qed.
#[local] Hint Resolve candidate_tag_trial_kept : kept.

Lemma candidate_loop_kept i key idx urls : forall t s r s',
  candidate_loop cl cfg i key idx t urls s = (r, s') -> kept key s s'.
Proof.
  induction urls as [|c urls IH]; simpl; intros t s r s' H; solve_kept key.
Qed.
#[local] Hint Resolve candidate_loop_kept : kept.

Lemma original_tag_trial_kept i key l s r s' :
  original_tag_trial cl cfg i key l s = (r, s') -> kept key s s'.
Proof.
  unfold original_tag_trial. intro H.
  msplit; use_specs; mclean; to_kept key;
    repeat match goal with
    | Q : quiet _ _ |- _ => apply (quiet_kept key) in Q
    end; chain_kept.
Qed.
#[local] Hint Resolve original_tag_trial_kept : kept.

Lemma tag_pass_kept i key l urls s r s' :
  tag_pass cl cfg i key l urls s = (r, s') -> kept key s s'.
Proof.
  unfold tag_pass. intro H.
  msplit; use_specs; mclean;
    repeat match goal with
    | Hl : tag_candidate_loop _ _ _ _ _ _ = _ |- _ =>
        apply tag_candidate_loop_spec in Hl as (? & _)
    end;
    to_kept key;
    repeat match goal with
    | Q : quiet _ _ |- _ => apply (quiet_kept key) in Q
    end; chain_kept.
Qed.
#[local] Hint Resolve tag_pass_kept : kept.









End KeptTrials.

(** ** What each part does to [results] *)

Section ResCalls.
Context {W : Type} (cl : client W) (cfg : config).
Implicit Types s : state W.

Lemma call_test_res p s r s' : call_test cl p s = (r, s') -> res s' = res s.
Proof.
  unfold call_test. destruct (test_indexer cl p (world s)). now intros [= <- <-].
Qed.

Lemma call_update_res i p s r s' : call_update cl i p s = (r, s') -> res s' = res s.
Proof.
  unfold call_update. destruct (update_indexer cl i p (world s)). now intros [= <- <-].
Qed.

Lemma call_get_res i s r s' : call_get cl i s = (r, s') -> res s' = res s.
Proof.
  unfold call_get. destruct (get_indexer cl i (world s)). now intros [= <- <-].
Qed.

Lemma call_find_or_create_tag_res l s r s' :
  call_find_or_create_tag cl l s = (r, s') -> res s' = res s.
Proof.
  unfold call_find_or_create_tag. destruct (find_or_create_tag cl l (world s)).
  now intros [= <- <-].
Qed.

Lemma py_sleep_res n s r s' : py_sleep cl n s = (r, s') -> res s' = res s.
Proof. unfold py_sleep. destruct (n <? 0)%Z; now intros [= <- <-]. Qed.

Lemma call_now_res s r s' : call_now cl s = (r, s') -> res s' = res s.
Proof. unfold call_now. destruct (time_now cl (world s)). now intros [= <- <-]. Qed.

Lemma clear_failure_state_res k s r s' :
  clear_failure_state k s = (r, s') -> res s' = res s.
Proof.
  unfold clear_failure_state, bind, get_indexer_state, set_indexer_state,
    _save_indexer_state, ret.
  destruct (dict_has k (indexer_state s)); now intros [= _ <-].
Qed.

Lemma record_failure_res k now s r s' :
  record_failure cfg k now s = (r, s') -> res s' = res s.
Proof.
  unfold record_failure, set_indexer_state, _save_indexer_state. intro H.
  msplit; mclean; reflexivity.
Qed.

End ResCalls.

Create HintDb res.
#[export] Hint Resolve call_test_res call_update_res call_get_res
  call_find_or_create_tag_res py_sleep_res call_now_res
  clear_failure_state_res record_failure_res : res.

(** Turn the runs of the parts into equations between [results]. *)
Ltac to_res :=
  repeat match goal with
  | H : append_fixed _ _ = (_, _) |- _ =>
      unfold append_fixed in H; first [discriminate H | injection H as ? ?; subst]
  | H : append_skipped _ _ = (_, _) |- _ =>
      unfold append_skipped in H; first [discriminate H | injection H as ? ?; subst]
  | H : append_failed _ _ = (_, _) |- _ =>
      unfold append_failed in H; first [discriminate H | injection H as ? ?; subst]
  | H : _ ?s1 = (_, ?s2) |- _ =>
      lazymatch type of s1 with state _ => idtac end;
      let Q := fresh "Q" in
      assert (Q : res s2 = res s1) by (eauto with res);
      clear H
  end.

Ltac chain_res :=
  cbn [res with_res] in *;
  repeat match goal with
  | Q : res _ = _ |- _ => rewrite Q in *; clear Q
  end;
  try reflexivity.

Ltac solve_res := msplit; mclean; to_res; chain_res.

Section ResTrials.
Context {W : Type} (cl : client W) (cfg : config).
Implicit Types s : state W.

Lemma ui_followup_res t s r s' : ui_followup cl t s = (r, s') -> res s' = res s.
Proof. unfold ui_followup. intro H. solve_res. Qed.
#[local] Hint Resolve ui_followup_res : res.

Lemma retry_loop_res n : forall a t s r s',
  retry_loop cl cfg n a t s = (r, s') -> res s' = res s.
Proof.
  induction n as [|n IH]; simpl; intros a t s r s' H; solve_res.
Qed.

Lemma perform_test_with_retries_res t s r s' :
  _perform_test_with_retries cl cfg t s = (r, s') -> res s' = res s.
Proof. apply retry_loop_res. Qed.
#[local] Hint Resolve perform_test_with_retries_res : res.

Lemma tag_test_loop_res n : forall a t s r s',
  tag_test_loop cl cfg n a t s = (r, s') -> res s' = res s.
Proof.
  induction n as [|n IH]; simpl; intros a t s r s' H; solve_res.
Qed.
#[local] Hint Resolve tag_test_loop_res : res.

Lemma save_unless_dry_run_res i p s r s' :
  save_unless_dry_run cl cfg i p s = (r, s') -> res s' = res s.
Proof. unfold save_unless_dry_run. intro H. solve_res. Qed.
#[local] Hint Resolve save_unless_dry_run_res : res.

Lemma as_is_trial_res idx s r s' :
  as_is_trial cl cfg idx s = (r, s') -> res s' = res s.
Proof. unfold as_is_trial. intro H. solve_res. Qed.
#[local] Hint Resolve as_is_trial_res : res.

Lemma ensure_tag_obj_res l s r s' :
  ensure_tag_obj cl cfg l s = (r, s') -> res s' = res s.
Proof. unfold ensure_tag_obj. intro H. solve_res. Qed.

Lemma persist_before_test_res i f l t s r s' :
  persist_before_test cl cfg i f l t s = (r, s') -> res s' = res s.
Proof. unfold persist_before_test. intro H. solve_res. Qed.

Lemma revert_after_exception_res i l s r s' :
  revert_after_exception cl cfg i l s = (r, s') -> res s' = res s.
Proof. unfold revert_after_exception. intro H. solve_res. Qed.

End ResTrials.

#[export] Hint Resolve ui_followup_res perform_test_with_retries_res
  tag_test_loop_res save_unless_dry_run_res as_is_trial_res
  ensure_tag_obj_res persist_before_test_res revert_after_exception_res : res.

Section ResLoops.
Context {W : Type} (cl : client W) (cfg : config).
Implicit Types s : state W.







End ResLoops.

Section ResDriver.
Context {W : Type} (cl : client W) (cfg : config).
Implicit Types s : state W.





End ResDriver.

Section Buckets.
Context {W : Type} (cl : client W) (cfg : config).
Implicit Types s : state W.


End Buckets.

(* ================================================================= *)
(** ** Concrete runs *)

Section ConcreteRuns.

Local Open Scope Z_scope.


(** An indexer that only the tag pass fixes is recorded under [fixed]
    and, by line 726, under [failed] as well. *)
Remark tag_pass_success_recorded_twice :
  fst (run_once (mock [VDict broken] [] always) plain_tag_config
         (start None fails_until_tag_pass))
  = Ret {| fixed := [mk_fixed broken VNone rot_tag];
           skipped := [];
           failed := [VDict broken] |}.
Proof. vm_compute; reflexivity. Qed.


(** C2.  The claim fails on the code: when the trial that succeeds is the
    minimal payload of a candidate (lines 492-503), the indexer is recorded
    as fixed but its entry stays in the failure state, in memory and in the
    file. *)
Theorem minimal_payload_success_keeps_failure_state :
  fst fixed_by_minimal_payload
  = Ret {| fixed := [mk_fixed broken (VStr "http://mirror") VNone];
           skipped := []; failed := [] |}
  /\ indexer_state (snd fixed_by_minimal_payload) = two_failures
  /\ state_file (snd fixed_by_minimal_payload) = Some two_failures.
Proof. vm_compute. repeat split. Qed.

(** C6.  The claim fails on the code: a field descriptor whose [name] is a
    number makes [is_indexer_error] raise ([int] has no [lower]). *)
Theorem is_indexer_error_raises_on_numeric_field_name :
  is_indexer_error
    [("id", VInt 3); ("implementation", VStr "Cardigann");
     ("fields", VList [VDict [("name", VInt 7); ("value", VStr "x")]])]
  = Raise AttributeError.
Proof. reflexivity. Qed.



(** Two transient errors, then success: waits of 2 and 4 seconds. *)
Lemma test_retries_follow_policy_witness :
  let cl := mock [] [] never in
  let s := loaded [] flaky in
  let run := _perform_test_with_retries cl default_config (VDict broken) s in
  let run_tag :=
    tag_test_loop cl default_config
      (Z.to_nat (TEST_RETRIES default_config + 1)) 0 (VDict broken) s in
  fst run = Ret true
  /\ sleeps (trace (snd run)) = [2; 4]
  /\ fst run_tag = Ret (success true)
  /\ (exists k evs,
        retry_run cl default_config (judge cl default_config (VDict broken))
          (VDict broken) k 0 s (fst run) (snd run)
        /\ (Z.of_nat k <= TEST_RETRIES default_config)%Z
        /\ trace (snd run) = trace s ++ evs
        /\ sleeps evs = backoff (TEST_RETRY_DELAY_SEC default_config) 0 k)
  /\ (exists k evs,
        retry_run cl default_config ret (VDict broken) k 0 s
          (fst run_tag) (snd run_tag)
        /\ (Z.of_nat k <= TEST_RETRIES default_config)%Z
        /\ trace (snd run_tag) = trace s ++ evs
        /\ sleeps evs = backoff (TEST_RETRY_DELAY_SEC default_config) 0 k).
Proof.
  cbv zeta.
  split; [vm_compute; reflexivity|].
  split; [vm_compute; reflexivity|].
  split; [vm_compute; reflexivity|].
  destruct (test_retries_follow_policy (mock [] [] never) default_config
              (VDict broken) (loaded [] flaky)) as [Hrun Htag].
  - vm_compute. discriminate.
  - vm_compute. discriminate.
  - split.
    + apply Hrun. apply surjective_pairing.
    + apply Htag. apply surjective_pairing.
Defined.


End ConcreteRuns.
